(** * blog-app: a shallow embedding of [server.js]

    The server is an Express application that keeps three JSON arrays on
    disk ([admins.json], [users.json], [blogs.json]).  Every route handler
    reads the arrays it needs with [readJSON], works on them in memory and,
    when it changed something, writes one array back with [writeJSON].

    The embedding has three layers:
    - [Js]: the JavaScript built-ins the handlers call ([find],
      [findIndex], [filter], [includes], [push], [splice], [sort], [trim],
      [split], the truthiness of a string that may be missing);
    - [Fs]: the text level of the store, that is [readFile], [JSON.parse]
      and the [readJSON] helper with its [catch] clause;
    - the route handlers, written in a state monad over the request
      context: the decoded collections, [req.session.user] and a log of
      the effects done.  The handlers are modelled on a store that can be
      read, one where each file is missing or holds an array of records;
      on any other store [readJSON] throws (layer [Fs]) and the request is
      aborted before it writes anything, no handler catching the error.
      A field of a request body is a string or is missing ([Js.field]).

    What comes from outside the program (the clock, [nanoid], [bcryptjs])
    is handed to a handler in an [Env]. *)

From Stdlib Require Import List String Ascii ZArith Bool Arith Lia.
From Stdlib Require Import Permutation Sorted.
Import ListNotations.

Local Open Scope string_scope.
Local Open Scope Z_scope.
Local Open Scope nat_scope.
Local Open Scope list_scope.

(* ================================================================== *)
(** * JavaScript built-ins used by the handlers *)
(* ================================================================== *)

Module Js.

(** A value read from [req.body] or from a record field that may be
    missing: [None] is [undefined].  A body field is a string or is left
    out, which is what the forms of the views post.  The body parsers
    ([express.urlencoded] with [extended: true], [express.json]) can also
    deliver an array, an object, a number, a boolean or [null] for a
    field; the handlers are not modelled on such a body, and what is
    proved below about submitted fields is about strings and missing
    fields only. *)
Definition field := option string.

(** [!!v] for a possibly missing string: [undefined] and [""] are falsy. *)
Definition truthy (v : field) : bool :=
  match v with
  | None => false
  | Some s => negb (s =? "")%string
  end.

(** [v || d] where [d] is a string. *)
Definition or_else (v : field) (d : string) : string :=
  match v with
  | None => d
  | Some s => if (s =? "")%string then d else s
  end.

(** [s === v] for a string [s] and a possibly missing [v]:
    code-unit-wise, case-sensitive equality; [undefined] equals no string. *)
Definition strict_eq (s : string) (v : field) : bool :=
  match v with
  | None => false
  | Some t => (s =? t)%string
  end.

(** [arr.includes(u)] on an array of strings. *)
Definition includes (u : string) (arr : list string) : bool :=
  existsb (fun e => (e =? u)%string) arr.

(** [arr.filter((e) => e !== u)]. *)
Definition without (u : string) (arr : list string) : list string :=
  filter (fun e => negb (e =? u)%string) arr.

(** [arr.push(x)]. *)
Definition push {A} (arr : list A) (x : A) : list A := arr ++ [x].

(** [arr.some(pred)]. *)
Definition some {A} (pred : A -> bool) (arr : list A) : bool :=
  existsb pred arr.

(** [arr.findIndex(pred)]; [None] stands for [-1]. *)
Fixpoint findIndex {A} (pred : A -> bool) (arr : list A) : option nat :=
  match arr with
  | [] => None
  | x :: rest =>
      if pred x then Some 0
      else match findIndex pred rest with
           | None => None
           | Some i => Some (S i)
           end
  end.

(** [arr.find(pred)]: the first element that satisfies [pred], with its
    position in [arr], which stands for the identity of the object. *)
Fixpoint find_ref {A} (pred : A -> bool) (arr : list A) : option (nat * A) :=
  match arr with
  | [] => None
  | x :: rest =>
      if pred x then Some (0, x)
      else match find_ref pred rest with
           | None => None
           | Some (i, y) => Some (S i, y)
           end
  end.

(** [arr.splice(idx, 1)], the array that is left. *)
Definition splice1 {A} (idx : nat) (arr : list A) : list A :=
  firstn idx arr ++ skipn (S idx) arr.

(** Assignment through an object reference held in an array: the object
    at position [idx] becomes [x]. *)
Fixpoint assign {A} (idx : nat) (x : A) (arr : list A) : list A :=
  match arr, idx with
  | [], _ => []
  | _ :: rest, 0 => x :: rest
  | y :: rest, S i => y :: assign i x rest
  end.

(** [arr.sort(cmp)]: the sort is stable, and [cmp a b <= 0] keeps [a]
    before [b].  Written as a stable insertion sort. *)
Fixpoint insert {A} (cmp : A -> A -> Z) (x : A) (sorted : list A) : list A :=
  match sorted with
  | [] => [x]
  | y :: rest =>
      if (cmp x y <=? 0)%Z then x :: y :: rest
      else y :: insert cmp x rest
  end.

Fixpoint sort {A} (cmp : A -> A -> Z) (arr : list A) : list A :=
  match arr with
  | [] => []
  | x :: rest => insert cmp x (sort cmp rest)
  end.

(** The white space [String.prototype.trim] removes (WhiteSpace and
    LineTerminator of ECMAScript), on a string held as its UTF-8 bytes.
    One byte: TAB, LF, VT, FF, CR and SPACE. *)
Definition is_space (c : ascii) : bool :=
  let n := nat_of_ascii c in
  ((9 <=? n) && (n <=? 13)) || (n =? 32).

(** Two bytes: U+00A0 (C2 A0). *)
Definition is_space2 (a b : ascii) : bool :=
  (nat_of_ascii a =? 194) && (nat_of_ascii b =? 160).

(** Three bytes: U+1680 (E1 9A 80), U+2000 to U+200A (E2 80 80 to
    E2 80 8A), U+2028 and U+2029 (E2 80 A8, E2 80 A9), U+202F (E2 80 AF),
    U+205F (E2 81 9F), U+3000 (E3 80 80) and U+FEFF (EF BB BF). *)
Definition is_space3 (a b c : ascii) : bool :=
  let x := nat_of_ascii a in
  let y := nat_of_ascii b in
  let z := nat_of_ascii c in
  ((x =? 225) && (y =? 154) && (z =? 128))
  || ((x =? 226) && (y =? 128)
      && (((128 <=? z) && (z <=? 138)) || (z =? 168) || (z =? 169) || (z =? 175)))
  || ((x =? 226) && (y =? 129) && (z =? 159))
  || ((x =? 227) && (y =? 128) && (z =? 128))
  || ((x =? 239) && (y =? 187) && (z =? 191)).

(** [s] starts with a white-space character; [sp2] and [sp3] test two
    and three bytes in the order they come in [s]. *)
Definition space_at_head (sp2 : ascii -> ascii -> bool)
  (sp3 : ascii -> ascii -> ascii -> bool) (s : string) : bool :=
  match s with
  | String c1 (String c2 (String c3 _)) =>
      is_space c1 || sp2 c1 c2 || sp3 c1 c2 c3
  | String c1 (String c2 EmptyString) => is_space c1 || sp2 c1 c2
  | String c1 EmptyString => is_space c1
  | EmptyString => false
  end.

(** [s] without the white space at its head. *)
Fixpoint drop_spaces (sp2 : ascii -> ascii -> bool)
  (sp3 : ascii -> ascii -> ascii -> bool) (s : string) : string :=
  match s with
  | EmptyString => s
  | String c1 r1 =>
      if is_space c1 then drop_spaces sp2 sp3 r1
      else
        match r1 with
        | EmptyString => s
        | String c2 r2 =>
            if sp2 c1 c2 then drop_spaces sp2 sp3 r2
            else
              match r2 with
              | EmptyString => s
              | String c3 r3 =>
                  if sp3 c1 c2 c3 then drop_spaces sp2 sp3 r3 else s
              end
        end
  end.

(** The bytes of [s] from the last to the first. *)
Fixpoint reverse (s : string) : string :=
  match s with
  | EmptyString => EmptyString
  | String c rest => (reverse rest ++ String c EmptyString)%string
  end.

(** The tests of two and three bytes, for bytes that come last first. *)
Definition is_space2_back (b a : ascii) : bool := is_space2 a b.
Definition is_space3_back (c b a : ascii) : bool := is_space3 a b c.

(** [s.trimStart()] and [s.trimEnd()]. *)
Definition trimStart (s : string) : string :=
  drop_spaces is_space2 is_space3 s.

Definition trimEnd (s : string) : string :=
  reverse (drop_spaces is_space2_back is_space3_back (reverse s)).

(** [s.trim()]. *)
Definition trim (s : string) : string := trimEnd (trimStart s).

(** [v?.trim()]. *)
Definition opt_trim (v : field) : field := option_map trim v.

(** [s.split("@")[0]]: the text before the first ["@"]. *)
Fixpoint before_at (s : string) : string :=
  match s with
  | EmptyString => EmptyString
  | String c rest =>
      if (c =? "@")%char then EmptyString else String c (before_at rest)
  end.

End Js.

(* ================================================================== *)
(** * Records of the three collections and of the session *)
(* ================================================================== *)

(** An entry of [admins.json].  The shipped file has an admin whose
    [password_hash] is still to be filled in, so the field may be missing
    or empty; so may [name]. *)
Module Admin.
Record t := mk {
  email : string;
  password_hash : Js.field;
  name : Js.field
}.
End Admin.

(** An entry of [users.json], as [POST /signup] writes it.  [createdAt] is
    written as the ISO-8601 text of an instant; the model keeps the instant,
    in milliseconds since the epoch. *)
Module User.
Record t := mk {
  name : string;
  email : string;
  password_hash : string;
  createdAt : Z
}.
End User.

(** An entry of [blogs.json], as [POST /posts] writes it.  [likes] and
    [dislikes] are arrays of account emails.  [createdAt] is written as
    ISO-8601 text and read back only through [new Date(p.createdAt)]; the
    model keeps that instant, in milliseconds since the epoch. *)
Module Post.
Record t := mk {
  id : string;
  title : string;
  content : string;
  authorEmail : string;
  authorName : string;
  createdAt : Z;
  likes : list string;
  dislikes : list string
}.

(** [post.likes = v] and [post.dislikes = v]. *)
Definition set_likes (v : list string) (p : t) : t :=
  mk (id p) (title p) (content p) (authorEmail p) (authorName p)
     (createdAt p) v (dislikes p).

Definition set_dislikes (v : list string) (p : t) : t :=
  mk (id p) (title p) (content p) (authorEmail p) (authorName p)
     (createdAt p) (likes p) v.
End Post.

Inductive Role := admin | user.

(** [req.session.user]. *)
Module Session.
Record t := mk {
  email : string;
  name : string;
  role : Role
}.
End Session.


(** What a rejected promise carries in this program. *)
Inductive Exn :=
| SystemError (code : string)   (* an error of [fs], with its [e.code] *)
| SyntaxError                   (* thrown by [JSON.parse] *)
| TypeError                     (* a property read on [undefined] *)
| Error (message : string).     (* thrown by [bcryptjs] on a non-string *)

(** [e.code]. *)
Definition code (e : Exn) : Js.field :=
  match e with
  | SystemError c => Some c
  | _ => None
  end.

(* ================================================================== *)
(** * The text level of the store: [readFile], [JSON.parse], [readJSON] *)
(* ================================================================== *)

Module Fs.

(** A parsed JSON text.  Numbers and strings are kept as they are written
    (a string without its quotes, escapes checked but not decoded). *)
#[local] Set Warnings "-register-all".
Inductive json :=
| JNull
| JBool (b : bool)
| JNumber (lexeme : string)
| JString (chars : string)
| JArray (items : list json)
| JObject (members : list (string * json)).

Definition dquote : ascii := "034"%char.
Definition backslash : ascii := "092"%char.

Definition is_ws (c : ascii) : bool :=
  let n := nat_of_ascii c in
  (n =? 32) || (n =? 9) || (n =? 10) || (n =? 13).

Definition is_digit (c : ascii) : bool :=
  let n := nat_of_ascii c in (48 <=? n) && (n <=? 57).

Definition is_hex (c : ascii) : bool :=
  let n := nat_of_ascii c in
  is_digit c || ((65 <=? n) && (n <=? 70)) || ((97 <=? n) && (n <=? 102)).

Definition is_simple_escape (c : ascii) : bool :=
  (c =? dquote)%char || (c =? backslash)%char || (c =? "/")%char ||
  (c =? "b")%char || (c =? "f")%char || (c =? "n")%char ||
  (c =? "r")%char || (c =? "t")%char.

Fixpoint skip_ws (s : string) : string :=
  match s with
  | String c r => if is_ws c then skip_ws r else s
  | EmptyString => s
  end.

(** The longest prefix of digits, and what follows it. *)
Fixpoint digits (s : string) : string * string :=
  match s with
  | String c r =>
      if is_digit c then let (ds, r') := digits r in (String c ds, r')
      else (EmptyString, s)
  | EmptyString => (EmptyString, s)
  end.

(** [lit] as a prefix of [s]: what follows it. *)
Fixpoint literal (lit s : string) : option string :=
  match lit, s with
  | EmptyString, _ => Some s
  | String a lit', String b s' => if (a =? b)%char then literal lit' s' else None
  | String _ _, EmptyString => None
  end.

Definition consed (c : ascii) (r : option (string * string)) :=
  match r with
  | Some (body, rest) => Some (String c body, rest)
  | None => None
  end.

(** A string token after its opening quote: its characters up to the
    closing quote, and what follows. *)
Fixpoint string_body (s : string) : option (string * string) :=
  match s with
  | EmptyString => None
  | String c r =>
      if (c =? dquote)%char then Some (EmptyString, r)
      else if (c =? backslash)%char then
        match r with
        | String e r1 =>
            if is_simple_escape e then consed c (consed e (string_body r1))
            else if (e =? "u")%char then
              match r1 with
              | String h1 (String h2 (String h3 (String h4 r2))) =>
                  if is_hex h1 && is_hex h2 && is_hex h3 && is_hex h4
                  then consed c (consed e (consed h1 (consed h2
                         (consed h3 (consed h4 (string_body r2))))))
                  else None
              | _ => None
              end
            else None
        | EmptyString => None
        end
      else if nat_of_ascii c <? 32 then None
      else consed c (string_body r)
  end.

(** [s] without its first character, when that is [c]. *)
Definition starts_with (c : ascii) (s : string) : option string :=
  match s with
  | String c' r => if (c' =? c)%char then Some r else None
  | EmptyString => None
  end.

(** The optional fraction and exponent of a number. *)
Definition fraction (s : string) : option (string * string) :=
  match starts_with "." s with
  | Some r =>
      match digits r with
      | (EmptyString, _) => None
      | (ds, r') => Some (String "." ds, r')
      end
  | None => Some (EmptyString, s)
  end.

Definition exponent (s : string) : option (string * string) :=
  match s with
  | String c r =>
      if (c =? "e")%char || (c =? "E")%char then
        let (sign, r1) :=
          match starts_with "+" r, starts_with "-" r with
          | Some r', _ => ("+", r')
          | None, Some r' => ("-", r')
          | None, None => (EmptyString, r)
          end in
        match digits r1 with
        | (EmptyString, _) => None
        | (ds, r2) => Some (String c (sign ++ ds)%string, r2)
        end
      else Some (EmptyString, s)
  | EmptyString => Some (EmptyString, s)
  end.

(** The integer part of a number: [0], or digits that do not start
    with [0]. *)
Definition integer (s : string) : option (string * string) :=
  match s with
  | String c r =>
      if (c =? "0")%char then Some ("0", r)
      else if is_digit c then let (ds, r') := digits r in Some (String c ds, r')
      else None
  | EmptyString => None
  end.

Definition number (s : string) : option (string * string) :=
  let (sign, s1) :=
    match starts_with "-" s with
    | Some r => ("-", r)
    | None => (EmptyString, s)
    end in
  match integer s1 with
  | None => None
  | Some (i, r1) =>
      match fraction r1 with
      | None => None
      | Some (f, r2) =>
          match exponent r2 with
          | None => None
          | Some (e, r3) => Some ((sign ++ i ++ f ++ e)%string, r3)
          end
      end
  end.

(** One JSON value at the head of [s] (after white space), and what
    follows it.  Each recursive call takes one unit of [fuel]. *)
Fixpoint value (fuel : nat) (s : string) {struct fuel} : option (json * string) :=
  match fuel with
  | 0 => None
  | S fuel' =>
      match skip_ws s with
      | EmptyString => None
      | String c r =>
          if (c =? "[")%char then
            match starts_with "]" (skip_ws r) with
            | Some r' => Some (JArray [], r')
            | None =>
                match elements fuel' r with
                | Some (vs, r') => Some (JArray vs, r')
                | None => None
                end
            end
          else if (c =? "{")%char then
            match starts_with "}" (skip_ws r) with
            | Some r' => Some (JObject [], r')
            | None =>
                match members fuel' r with
                | Some (ms, r') => Some (JObject ms, r')
                | None => None
                end
            end
          else if (c =? dquote)%char then
            match string_body r with
            | Some (body, r') => Some (JString body, r')
            | None => None
            end
          else if (c =? "t")%char then
            option_map (fun r' => (JBool true, r')) (literal "rue" r)
          else if (c =? "f")%char then
            option_map (fun r' => (JBool false, r')) (literal "alse" r)
          else if (c =? "n")%char then
            option_map (fun r' => (JNull, r')) (literal "ull" r)
          else
            match number (String c r) with
            | Some (lexeme, r') => Some (JNumber lexeme, r')
            | None => None
            end
      end
  end

with elements (fuel : nat) (s : string) {struct fuel} : option (list json * string) :=
  match fuel with
  | 0 => None
  | S fuel' =>
      match value fuel' s with
      | None => None
      | Some (v, r) =>
          match skip_ws r with
          | String c r' =>
              if (c =? ",")%char then
                match elements fuel' r' with
                | Some (vs, r'') => Some (v :: vs, r'')
                | None => None
                end
              else if (c =? "]")%char then Some ([v], r')
              else None
          | EmptyString => None
          end
      end
  end

with members (fuel : nat) (s : string) {struct fuel}
  : option (list (string * json) * string) :=
  match fuel with
  | 0 => None
  | S fuel' =>
      match starts_with dquote (skip_ws s) with
      | None => None
      | Some r =>
          match string_body r with
          | None => None
          | Some (key, r1) =>
              match starts_with ":" (skip_ws r1) with
              | None => None
              | Some r2 =>
                  match value fuel' r2 with
                  | None => None
                  | Some (v, r3) =>
                      match skip_ws r3 with
                      | String c r4 =>
                          if (c =? ",")%char then
                            match members fuel' r4 with
                            | Some (ms, r5) => Some ((key, v) :: ms, r5)
                            | None => None
                            end
                          else if (c =? "}")%char then Some ([(key, v)], r4)
                          else None
                      | EmptyString => None
                      end
                  end
              end
          end
      end
  end.

(** [JSON.parse(text)]: one value, white space around it, nothing else. *)
Definition JSON_parse (text : string) : Exn + json :=
  match value (2 * String.length text + 2) text with
  | Some (v, rest) =>
      match skip_ws rest with
      | EmptyString => inr v
      | String _ _ => inl SyntaxError
      end
  | None => inl SyntaxError
  end.

(** The state of one file of [data/]: reading it fails with an error code,
    or yields its text.  A file that does not exist fails with ["ENOENT"]. *)
Inductive file_state :=
| ReadFails (code : string)
| Holds (raw : string).

(** The directory [data/], by file name. *)
Definition dir := string -> file_state.

(** [await readFile(filePath(name), "utf-8")]. *)
Definition readFile (d : dir) (name : string) : Exn + string :=
  match d name with
  | ReadFails c => inl (SystemError c)
  | Holds raw => inr raw
  end.

(** The [catch (e)] clause of [readJSON]. *)
Definition catch (e : Exn) : Exn + json :=
  if Js.strict_eq "ENOENT" (code e) then inr (JArray []) else inl e.

(** [readJSON(name)]. *)
Definition readJSON (d : dir) (name : string) : Exn + json :=
  match readFile d name with
  | inl e => catch e
  | inr raw =>
      match JSON_parse (if (raw =? "")%string then "[]" else raw) with
      | inl e => catch e
      | inr v => inr v
      end
  end.

End Fs.

(* ================================================================== *)
(** * The request context and the handler monad *)
(* ================================================================== *)

(** The three collections as [readJSON] decodes them.  [None] is a file
    that does not exist yet; [writeJSON] creates it. *)
Record Disk := mkDisk {
  admins_file : option (list Admin.t);
  users_file : option (list User.t);
  blogs_file : option (list Post.t)
}.

(** The files of [data/], each with the type of its records. *)
Inductive file : Type -> Type :=
| admins_json : file Admin.t
| users_json : file User.t
| blogs_json : file Post.t.

Definition file_name {A} (f : file A) : string :=
  match f with
  | admins_json => "admins.json"
  | users_json => "users.json"
  | blogs_json => "blogs.json"
  end.

Definition slot {A} (f : file A) (d : Disk) : option (list A) :=
  match f with
  | admins_json => admins_file d
  | users_json => users_file d
  | blogs_json => blogs_file d
  end.

Definition store {A} (f : file A) : list A -> Disk -> Disk :=
  match f with
  | admins_json => fun v d => mkDisk (Some v) (users_file d) (blogs_file d)
  | users_json => fun v d => mkDisk (admins_file d) (Some v) (blogs_file d)
  | blogs_json => fun v d => mkDisk (admins_file d) (users_file d) (Some v)
  end.

(** The array a read of [f] yields: a missing file reads as [[]]. *)
Definition contents {A} (f : file A) (d : Disk) : list A :=
  match slot f d with
  | Some arr => arr
  | None => []
  end.

(** What a handler does besides answering, in the order it does it. *)
Inductive Effect :=
| ReadFile (name : string)
| WriteFile (name : string)
| Hash
| Compare.

(** What a handler runs in: the files, [req.session.user] of the client
    that sent the request, and the effects done so far. *)
Record Ctx := mkCtx {
  disk : Disk;
  session_user : option Session.t;
  trace : list Effect
}.

(** What the handler of one request gets from outside the program:
    the id [nanoid(10)] returns, the instant [new Date()] returns, and
    [bcryptjs] (a salted hash, and the check of a password against one). *)
Record Env := mkEnv {
  nanoid : string;
  now : Z;
  bcrypt_hash : string -> nat -> string;
  bcrypt_compare : string -> string -> bool
}.

Definition M (A : Type) : Type := Ctx -> A * Ctx.

Definition ret {A} (a : A) : M A := fun c => (a, c).

Definition bind {A B} (m : M A) (k : A -> M B) : M B :=
  fun c => let (a, c') := m c in k a c'.

Declare Scope handler_scope.
Delimit Scope handler_scope with handler.
Notation "x <- m ;; k" := (bind m (fun x => k))
  (at level 61, m at next level, right associativity) : handler_scope.
Notation "m ;; k" := (bind m (fun _ => k))
  (at level 61, right associativity) : handler_scope.
Local Open Scope handler_scope.

Definition log (e : Effect) : M unit :=
  fun c => (tt, mkCtx (disk c) (session_user c) (trace c ++ [e])).

(** [await readJSON(name)], decoded. *)
Definition readJSON {A} (f : file A) : M (list A) :=
  log (ReadFile (file_name f)) ;;
  fun c => (contents f (disk c), c).

(** [await writeJSON(name, data)]. *)
Definition writeJSON {A} (f : file A) (data : list A) : M unit :=
  log (WriteFile (file_name f)) ;;
  fun c => (tt, mkCtx (store f data (disk c)) (session_user c) (trace c)).

(** [req.session.user = u] and [req.session.destroy()]. *)
Definition set_session (u : option Session.t) : M unit :=
  fun c => (tt, mkCtx (disk c) u (trace c)).

(** [await bcrypt.hash(password, rounds)]; [password] is a string where
    [POST /signup] calls it. *)
Definition hash (env : Env) (password : string) (rounds : nat) : M string :=
  log Hash ;; ret (bcrypt_hash env password rounds).

(** [await bcrypt.compare(password, hash)]: [bcryptjs] rejects a
    [password] that is not a string. *)
Definition compare (env : Env) (password : Js.field) (hash : string)
  : M (Exn + bool) :=
  log Compare ;;
  ret match password with
      | None => inl (Error "Illegal arguments: undefined, string")
      | Some s => inr (bcrypt_compare env s hash)
      end.

(* ================================================================== *)
(** * Responses *)
(* ================================================================== *)

Inductive Response :=
| redirect (path : string)
| render (status : nat) (view : string) (error : Js.field)
| render_index (posts : list Post.t)
| send (status : nat) (body : string)
| json (user : option Session.t)
| rejected (e : Exn).

(** The failures the specification names. *)
Definition InvalidCredentials : Response :=
  render 401 "login" (Some "Invalid credentials").
Definition AdminNotConfigured : Response :=
  send 400 "Admin password not set. See README to set a hash.".
Definition ValidationFailed : Response :=
  render 400 "signup" (Some "Email and password required").
Definition DuplicateEmail : Response :=
  render 400 "signup" (Some "Email already exists").
Definition NotFound : Response := send 404 "Post not found".
Definition Forbidden : Response :=
  send 403 "You can only delete your own posts".

(* ================================================================== *)
(** * Auth helpers *)
(* ================================================================== *)

Definition isLoggedIn (c : Ctx) : bool :=
  match session_user c with
  | Some _ => true
  | None => false
  end.

Definition isAdmin (c : Ctx) : bool :=
  match session_user c with
  | Some u => match Session.role u with admin => true | user => false end
  | None => false
  end.

(** The [req] a handler was called with. *)
Definition request : M Ctx := fun c => (c, c).

(** [requireAuth]: [next] runs with [req.session.user] at hand. *)
Definition requireAuth (next : Session.t -> M Response) : M Response :=
  fun c =>
    match session_user c with
    | None => (redirect "/login", c)
    | Some u => next u c
    end.

(** [requireAdmin] (no route uses it). *)
Definition requireAdmin (next : M Response) : M Response :=
  fun c => if isAdmin c then next c else (send 403 "Forbidden", c).

(** The string in [v] once a record's field was found [===] to it. *)
Definition as_string (v : Js.field) : string :=
  match v with
  | Some s => s
  | None => EmptyString
  end.

(* ================================================================== *)
(** * Route handlers *)
(* ================================================================== *)

(** The comparator of [GET /]:
    [(a, b) => new Date(b.createdAt) - new Date(a.createdAt)]. *)
Definition newest_first (a b : Post.t) : Z :=
  (Post.createdAt b - Post.createdAt a)%Z.

(** [GET /] *)
Definition listPosts : M Response :=
  posts <- readJSON blogs_json ;;
  ret (render_index (Js.sort newest_first posts)).

(** [GET /login] *)
Definition get_login : M Response :=
  fun c => if isLoggedIn c then (redirect "/", c) else (render 200 "login" None, c).

(** [POST /login] *)
Definition login (env : Env) (email password : Js.field) : M Response :=
  admins <- readJSON admins_json ;;
  users <- readJSON users_json ;;
  match find (fun a => Js.strict_eq (Admin.email a) email) admins with
  | Some adm =>
      if negb (Js.truthy (Admin.password_hash adm)) then ret AdminNotConfigured
      else
        ok <- compare env password (as_string (Admin.password_hash adm)) ;;
        match ok with
        | inl e => ret (rejected e)
        | inr false => ret InvalidCredentials
        | inr true =>
            set_session (Some (Session.mk (as_string email)
                                 (Js.or_else (Admin.name adm) "Admin") admin)) ;;
            ret (redirect "/")
        end
  | None =>
      match find (fun u => Js.strict_eq (User.email u) email) users with
      | None => ret InvalidCredentials
      | Some usr =>
          ok <- compare env password (User.password_hash usr) ;;
          match ok with
          | inl e => ret (rejected e)
          | inr false => ret InvalidCredentials
          | inr true =>
              set_session (Some (Session.mk (as_string email)
                                   (Js.or_else (Some (User.name usr))
                                      (Js.before_at (as_string email)))
                                   user)) ;;
              ret (redirect "/")
          end
      end
  end.

(** [POST /logout] *)
Definition logout : M Response :=
  set_session None ;; ret (redirect "/login").

(** [GET /signup] *)
Definition get_signup : M Response :=
  fun c => if isLoggedIn c then (redirect "/", c) else (render 200 "signup" None, c).

(** [POST /signup] *)
Definition signup (env : Env) (name email password : Js.field) : M Response :=
  if negb (Js.truthy email) || negb (Js.truthy password) then ret ValidationFailed
  else
    users <- readJSON users_json ;;
    admins <- readJSON admins_json ;;
    if Js.some (fun a => Js.strict_eq (Admin.email a) email) admins
       || Js.some (fun u => Js.strict_eq (User.email u) email) users
    then ret DuplicateEmail
    else
      password_hash <- hash env (as_string password) 10 ;;
      writeJSON users_json
        (Js.push users (User.mk (Js.or_else name "") (as_string email)
                          password_hash (now env))) ;;
      ret (redirect "/login").

(** [GET /posts/new] *)
Definition get_new_post : M Response :=
  requireAuth (fun _ => ret (render 200 "new-post" None)).

(** [POST /posts] *)
Definition createPost (env : Env) (title content : Js.field) : M Response :=
  requireAuth (fun u =>
    posts <- readJSON blogs_json ;;
    let post :=
      Post.mk (nanoid env)
        (Js.or_else (Js.opt_trim title) "(untitled)")
        (Js.or_else (Js.opt_trim content) "")
        (Session.email u) (Session.name u) (now env) [] [] in
    writeJSON blogs_json (Js.push posts post) ;;
    ret (redirect "/")).

(** [(p) => p.id === id] *)
Definition has_id (id : string) (p : Post.t) : bool := (Post.id p =? id)%string.

(** [DELETE /posts/:id] *)
Definition deletePost (id : string) : M Response :=
  requireAuth (fun u =>
    posts <- readJSON blogs_json ;;
    match Js.findIndex (has_id id) posts with
    | None => ret NotFound
    | Some idx =>
        match nth_error posts idx with
        | None => ret (rejected TypeError)
        | Some post =>
            req <- request ;;
            if negb (isAdmin req)
               && negb (Post.authorEmail post =? Session.email u)%string
            then ret Forbidden
            else
              writeJSON blogs_json (Js.splice1 idx posts) ;;
              ret (redirect "/")
        end
    end).

(** What [POST /posts/:id/like] does to the post it found: [u] leaves
    [dislikes], then toggles in [likes]. *)
Definition toggle_like (u : string) (post : Post.t) : Post.t :=
  let post := Post.set_dislikes (Js.without u (Post.dislikes post)) post in
  if Js.includes u (Post.likes post)
  then Post.set_likes (Js.without u (Post.likes post)) post
  else Post.set_likes (Js.push (Post.likes post) u) post.

(** What [POST /posts/:id/dislike] does to the post it found. *)
Definition toggle_dislike (u : string) (post : Post.t) : Post.t :=
  let post := Post.set_likes (Js.without u (Post.likes post)) post in
  if Js.includes u (Post.dislikes post)
  then Post.set_dislikes (Js.without u (Post.dislikes post)) post
  else Post.set_dislikes (Js.push (Post.dislikes post) u) post.

(** [POST /posts/:id/like].  [posts.find] hands out the object that sits
    in [posts], so the assignments to [post.likes] and [post.dislikes] show
    in [posts] when it is written back: the updated record goes back to
    the position [Js.find_ref] found it at. *)
Definition like (id : string) : M Response :=
  requireAuth (fun usr =>
    posts <- readJSON blogs_json ;;
    match Js.find_ref (has_id id) posts with
    | None => ret NotFound
    | Some (ref, post) =>
        let u := Session.email usr in
        writeJSON blogs_json (Js.assign ref (toggle_like u post) posts) ;;
        ret (redirect "/")
    end).

(** [POST /posts/:id/dislike] *)
Definition dislike (id : string) : M Response :=
  requireAuth (fun usr =>
    posts <- readJSON blogs_json ;;
    match Js.find_ref (has_id id) posts with
    | None => ret NotFound
    | Some (ref, post) =>
        let u := Session.email usr in
        writeJSON blogs_json (Js.assign ref (toggle_dislike u post) posts) ;;
        ret (redirect "/")
    end).

(** [GET /me] *)
Definition me : M Response :=
  fun c => (json (session_user c), c).

(** The routes. *)
Inductive Request :=
| GET_root
| GET_login
| POST_login (email password : Js.field)
| POST_logout
| GET_signup
| POST_signup (name email password : Js.field)
| GET_posts_new
| POST_posts (title content : Js.field)
| DELETE_posts (id : string)
| POST_like (id : string)
| POST_dislike (id : string)
| GET_me.

Definition handle (env : Env) (req : Request) : M Response :=
  match req with
  | GET_root => listPosts
  | GET_login => get_login
  | POST_login email password => login env email password
  | POST_logout => logout
  | GET_signup => get_signup
  | POST_signup name email password => signup env name email password
  | GET_posts_new => get_new_post
  | POST_posts title content => createPost env title content
  | DELETE_posts id => deletePost id
  | POST_like id => like id
  | POST_dislike id => dislike id
  | GET_me => me
  end.

(** The response to a request and the files after it. *)
Definition response {A} (r : A * Ctx) : A := fst r.
Definition after {A} (r : A * Ctx) : Ctx := snd r.

(* ================================================================== *)
(** * Properties of stores and listings *)
(* ================================================================== *)

(** No email is both in [likes] and in [dislikes] of the post. *)
Definition exclusive (p : Post.t) : Prop :=
  forall e, ~ (In e (Post.likes p) /\ In e (Post.dislikes p)).

(** The same, as a test. *)
Definition exclusiveb (p : Post.t) : bool :=
  forallb (fun e => negb (Js.includes e (Post.dislikes p))) (Post.likes p).

(** The reaction invariant of the store: it holds of every post. *)
Definition Exclusive (d : Disk) : Prop :=
  forall p, In p (contents blogs_json d) -> exclusive p.

(** The emails of all accounts, admins first. *)
Definition emails (d : Disk) : list string :=
  map Admin.email (contents admins_json d) ++ map User.email (contents users_json d).

(** No email belongs to two accounts. *)
Definition Unique (d : Disk) : Prop := NoDup (emails d).

(** [a] was created no earlier than [b]. *)
Definition not_older (a b : Post.t) : Prop :=
  (Post.createdAt b <= Post.createdAt a)%Z.

(** The posts created at the instant [t]. *)
Definition created_at (t : Z) (l : list Post.t) : list Post.t :=
  filter (fun p => (Post.createdAt p =? t)%Z) l.

(** A parser is settled at the fuel [f] when, for every input it parses
    with [f], what it leaves is shorter than the input and any fuel that
    is at least twice the number of characters taken gives the same
    result. *)
Definition settled {A} (parse : nat -> string -> option (A * string)) (f : nat)
  : Prop :=
  forall s a rest,
    parse f s = Some (a, rest) ->
    String.length rest < String.length s
    /\ forall f', 2 * (String.length s - String.length rest) <= f' ->
                  parse f' s = Some (a, rest).

(* ================================================================== *)
(** * Sequences of requests *)
(* ================================================================== *)

(** The next request comes from the client whose session holds [s]. *)
Definition as_client (s : option Session.t) (c : Ctx) : Ctx :=
  mkCtx (disk c) s (trace c).

(** Requests served one after the other, each with the session of the
    client that sent it (any session: clients are not tied to each other). *)
Fixpoint serve (reqs : list (Env * option Session.t * Request)) (d : Disk) : Disk :=
  match reqs with
  | [] => d
  | (env, s, req) :: reqs' =>
      serve reqs' (disk (after (handle env req (mkCtx d s []))))
  end.

(** Signups served one after the other, by any clients. *)
Fixpoint signups (reqs : list (Env * option Session.t * (Js.field * Js.field * Js.field)))
  (d : Disk) : Disk :=
  match reqs with
  | [] => d
  | (env, s, (name, email, password)) :: reqs' =>
      signups reqs' (disk (after (signup env name email password (mkCtx d s []))))
  end.

(** The context after two [like] requests in a row on the post [id]. *)
Definition liked_twice (id : string) (c : Ctx) : Ctx :=
  after (like id (after (like id c))).

(** Three posts created one after the other, by the clients [u1], [u2]
    and [u3], each with its own id and instant. *)
Definition three_posts (e1 e2 e3 : Env) (u1 u2 u3 : Session.t)
  (b1 b2 b3 : Js.field * Js.field) (c : Ctx) : Ctx :=
  let c1 := after (createPost e1 (fst b1) (snd b1) (as_client (Some u1) c)) in
  let c2 := after (createPost e2 (fst b2) (snd b2) (as_client (Some u2) c1)) in
  after (createPost e3 (fst b3) (snd b3) (as_client (Some u3) c2)).

(* ================================================================== *)
(** * Data for the examples *)
(* ================================================================== *)

(** A stand-in for [bcryptjs]: the hash of a password is the password
    behind a marker. *)
Definition example_hash (password : string) (rounds : nat) : string :=
  ("$2a$" ++ password)%string.
Definition example_compare (password hash : string) : bool :=
  (hash =? example_hash password 10)%string.
Definition example_env (id : string) (t : Z) : Env :=
  mkEnv id t example_hash example_compare.

Definition alice : Session.t := Session.mk "a@x.com" "Alice" user.
Definition bob : Session.t := Session.mk "b@x.com" "Bob" user.
Definition root : Session.t := Session.mk "admin@example.com" "Admin" admin.

Definition empty_store : Ctx := mkCtx (mkDisk None None None) None [].

(** A post of Bob's that Alice likes and Carol dislikes. *)
Definition bobs_post : Post.t :=
  Post.mk "V1StGXR8_Z" "Hello" "First post" "b@x.com" "Bob" 1700000000000
    ["a@x.com"] ["c@x.com"].

Definition one_post : Disk := mkDisk None None (Some [bobs_post]).

(** A post of Alice's, newer than Bob's, and the store with both. *)
Definition alices_post : Post.t :=
  Post.mk "Uakgb_J5m9" "Second" "post" "a@x.com" "Alice" 1700000000001 [] [].

Definition two_posts : Disk := mkDisk None None (Some [bobs_post; alices_post]).

(** The admin of the shipped [admins.json], whose hash is still to be
    set, and Alice as a user. *)
Definition the_admin : Admin.t :=
  Admin.mk "admin@example.com" (Some EmptyString) (Some "Admin").
Definition alice_account : User.t :=
  User.mk "Alice" "a@x.com" (example_hash "pw1" 10) 1700000000000.
Definition two_accounts : Disk :=
  mkDisk (Some [the_admin]) (Some [alice_account]) None.

(** A store where the admin is set up, and a user record was put in by
    hand under the admin's email, with a password of its own. *)
Definition configured_admin : Admin.t :=
  Admin.mk "admin@example.com" (Some (example_hash "root-pw" 10)) None.
Definition mallory_account : User.t :=
  User.mk "Mallory" "admin@example.com" (example_hash "user-pw" 10) 0.
Definition shadowed : Disk :=
  mkDisk (Some [configured_admin]) (Some [mallory_account]) None.

(* ================================================================== *)
(** * Routes, footprints and further properties of stores *)
(* ================================================================== *)

(** The routes registered with [requireAuth]. *)
Definition guarded (req : Request) : bool :=
  match req with
  | GET_posts_new | POST_posts _ _ | DELETE_posts _
  | POST_like _ | POST_dislike _ => true
  | _ => false
  end.

(** The routes whose handler calls [writeJSON("blogs.json", ...)]. *)
Definition writes_blogs (req : Request) : bool :=
  match req with
  | POST_posts _ _ | DELETE_posts _ | POST_like _ | POST_dislike _ => true
  | _ => false
  end.

(** The only route whose handler calls [writeJSON("users.json", ...)]. *)
Definition writes_users (req : Request) : bool :=
  match req with
  | POST_signup _ _ _ => true
  | _ => false
  end.

(** The two routes that assign or destroy [req.session.user]. *)
Definition sets_session (req : Request) : bool :=
  match req with
  | POST_login _ _ | POST_logout => true
  | _ => false
  end.

(** What a post is made of, its reactions apart. *)
Definition body_of (p : Post.t) : string * string * string * string * string * Z :=
  (Post.id p, Post.title p, Post.content p,
   Post.authorEmail p, Post.authorName p, Post.createdAt p).

(** [p'] is [p] up to the reaction of [u]: the same body, and every
    email but [u] in [likes] and in [dislikes] exactly when it was. *)
Definition same_but_reaction_of (u : string) (p p' : Post.t) : Prop :=
  body_of p' = body_of p
  /\ forall e, e <> u ->
       (In e (Post.likes p') <-> In e (Post.likes p))
       /\ (In e (Post.dislikes p') <-> In e (Post.dislikes p)).

(** The ids of the posts of the store, in order. *)
Definition post_ids (d : Disk) : list string :=
  map Post.id (contents blogs_json d).

(** Along a sequence of requests, every [POST /posts] gets from [nanoid]
    an id that no post of the store has at that moment. *)
Fixpoint fresh_ids (reqs : list (Env * option Session.t * Request)) (d : Disk)
  : Prop :=
  match reqs with
  | [] => True
  | (env, s, req) :: reqs' =>
      (match req with
       | POST_posts _ _ => ~ In (nanoid env) (post_ids d)
       | _ => True
       end)
      /\ fresh_ids reqs' (disk (after (handle env req (mkCtx d s []))))
  end.

(** A string starts, or ends, with a white-space character. *)
Definition starts_with_space (s : string) : bool :=
  Js.space_at_head Js.is_space2 Js.is_space3 s.

Definition ends_with_space (s : string) : bool :=
  Js.space_at_head Js.is_space2_back Js.is_space3_back (Js.reverse s).

(** No white space at either end. *)
Definition trimmed (s : string) : Prop :=
  starts_with_space s = false /\ ends_with_space s = false.

(** The context after a [like] and then a [dislike] of the post [id], and
    the other way round, and after two [dislike] in a row. *)
Definition liked_then_disliked (id : string) (c : Ctx) : Ctx :=
  after (dislike id (after (like id c))).
Definition disliked_then_liked (id : string) (c : Ctx) : Ctx :=
  after (like id (after (dislike id c))).
Definition disliked_twice (id : string) (c : Ctx) : Ctx :=
  after (dislike id (after (dislike id c))).

(** The effects a handler added to the log are in order when a write, if
    there is one, is the last of them and the only write, and the file it
    writes was read before. *)
Definition read_then_write (ev : list Effect) : Prop :=
  forall name,
    In (WriteFile name) ev ->
    exists pre,
      ev = pre ++ [WriteFile name]
      /\ In (ReadFile name) pre
      /\ forall other, ~ In (WriteFile other) pre.

(* ================================================================== *)
(** * Facts about the built-ins *)
(* ================================================================== *)

Section JsFacts.

Context {A : Type}.
Implicit Types (pred : A -> bool) (arr : list A).

Lemma includes_In (u : string) (l : list string) :
  Js.includes u l = true <-> In u l.
Proof.
  unfold Js.includes. rewrite existsb_exists. split.
  - intros [e [Hin He]]. apply String.eqb_eq in He. now subst.
  - intros Hin. exists u. split; [assumption | apply String.eqb_refl].
Qed.

Lemma includes_false (u : string) (l : list string) :
  Js.includes u l = false <-> ~ In u l.
Proof.
  rewrite <- includes_In. destruct (Js.includes u l); split; congruence.
Qed.

Lemma In_without (e u : string) (l : list string) :
  In e (Js.without u l) <-> In e l /\ e <> u.
Proof.
  unfold Js.without. rewrite filter_In, negb_true_iff.
  now rewrite String.eqb_neq.
Qed.

Lemma not_In_without (u : string) (l : list string) : ~ In u (Js.without u l).
Proof. rewrite In_without. tauto. Qed.

Lemma In_push (x y : A) arr : In x (Js.push arr y) <-> In x arr \/ x = y.
Proof.
  unfold Js.push. rewrite in_app_iff. simpl. intuition congruence.
Qed.

(** [find_ref] finds the first element that satisfies the predicate:
    the array splits around it. *)
Lemma find_ref_Some pred arr i x :
  Js.find_ref pred arr = Some (i, x) ->
  exists before rest,
    arr = before ++ x :: rest /\ List.length before = i /\
    pred x = true /\ forallb (fun y => negb (pred y)) before = true.
Proof.
  revert i. induction arr as [|y arr IH]; simpl; intros i H.
  - discriminate.
  - destruct (pred y) eqn:Hy.
    + injection H as <- <-. exists [], arr. auto.
    + destruct (Js.find_ref pred arr) as [[j z]|] eqn:Hr; [|discriminate].
      injection H as <- <-.
      destruct (IH j eq_refl) as (before & rest & -> & Hlen & Hx & Hall).
      exists (y :: before), rest. simpl. rewrite Hy, Hall, Hlen. auto.
Qed.

Lemma find_ref_None pred arr :
  Js.find_ref pred arr = None <-> forall x, In x arr -> pred x = false.
Proof.
  induction arr as [|y arr IH]; simpl.
  - tauto.
  - destruct (pred y) eqn:Hy.
    + split; [discriminate|]. intros H. rewrite (H y) in Hy; auto. discriminate.
    + destruct (Js.find_ref pred arr) as [[j z]|].
      * split; [discriminate|]. intros H.
        assert (Some (j, z) = None) by (apply IH; auto). discriminate.
      * split; [|reflexivity]. intros _ x [<-|Hin]; [assumption|].
        now apply IH.
Qed.

(** The object [find_ref] returns is the one [find] returns, and its
    position is the one [findIndex] returns. *)
Lemma find_ref_find pred arr :
  option_map snd (Js.find_ref pred arr) = find pred arr.
Proof.
  induction arr as [|y arr IH]; simpl; [reflexivity|].
  destruct (pred y); [reflexivity|].
  rewrite <- IH. now destruct (Js.find_ref pred arr) as [[j z]|].
Qed.

Lemma find_ref_findIndex pred arr :
  option_map fst (Js.find_ref pred arr) = Js.findIndex pred arr.
Proof.
  induction arr as [|y arr IH]; simpl; [reflexivity|].
  destruct (pred y); [reflexivity|].
  rewrite <- IH. now destruct (Js.find_ref pred arr) as [[j z]|].
Qed.

Lemma find_app_skip pred before x rest :
  forallb (fun y => negb (pred y)) before = true ->
  find pred (before ++ x :: rest) = find pred (x :: rest).
Proof.
  induction before as [|y before IH]; simpl; [reflexivity|].
  rewrite andb_true_iff, negb_true_iff. intros [-> H]. auto.
Qed.

Lemma assign_middle before (x y : A) rest :
  Js.assign (List.length before) y (before ++ x :: rest) = before ++ y :: rest.
Proof.
  induction before as [|z before IH]; simpl; [reflexivity|]. now rewrite IH.
Qed.

Lemma splice1_middle before (x : A) rest :
  Js.splice1 (List.length before) (before ++ x :: rest) = before ++ rest.
Proof.
  unfold Js.splice1.
  induction before as [|z before IH]; [reflexivity|].
  cbn [List.length firstn skipn app] in *. now rewrite IH.
Qed.

Lemma nth_error_middle before (x : A) rest :
  nth_error (before ++ x :: rest) (List.length before) = Some x.
Proof.
  rewrite nth_error_app2 by lia. now rewrite Nat.sub_diag.
Qed.

End JsFacts.

Lemma find_split {A} (pred : A -> bool) (arr : list A) (x : A) :
  find pred arr = Some x ->
  exists before rest,
    arr = before ++ x :: rest /\ pred x = true /\
    forallb (fun y => negb (pred y)) before = true /\
    Js.find_ref pred arr = Some (List.length before, x).
Proof.
  rewrite <- find_ref_find.
  destruct (Js.find_ref pred arr) as [[i y]|] eqn:H; [|discriminate].
  simpl. intros [= ->].
  destruct (find_ref_Some _ _ _ _ H) as (before & rest & Harr & <- & Hx & Hb).
  now exists before, rest.
Qed.

Lemma find_middle {A} (pred : A -> bool) (before rest : list A) (x : A) :
  forallb (fun y => negb (pred y)) before = true ->
  pred x = true ->
  find pred (before ++ x :: rest) = Some x.
Proof.
  intros Hb Hx. rewrite find_app_skip by assumption. simpl. now rewrite Hx.
Qed.

(* ================================================================== *)
(** * Reactions *)
(* ================================================================== *)

Lemma exclusiveb_spec p : exclusiveb p = true <-> exclusive p.
Proof.
  unfold exclusiveb, exclusive. rewrite forallb_forall. split.
  - intros H e [Hl Hd]. specialize (H e Hl).
    apply negb_true_iff, includes_false in H. contradiction.
  - intros H e Hl. apply negb_true_iff, includes_false.
    intros Hd. now apply (H e).
Qed.

Lemma Exclusive_forallb d :
  forallb exclusiveb (contents blogs_json d) = true -> Exclusive d.
Proof.
  rewrite forallb_forall. intros H p Hp. now apply exclusiveb_spec, H.
Qed.

Section Toggle.

Variables (u : string) (p : Post.t).

Lemma toggle_like_id : Post.id (toggle_like u p) = Post.id p.
Proof. unfold toggle_like. simpl. now destruct (Js.includes u (Post.likes p)). Qed.

Lemma toggle_dislike_id : Post.id (toggle_dislike u p) = Post.id p.
Proof. unfold toggle_dislike. simpl. now destruct (Js.includes u (Post.dislikes p)). Qed.

Lemma toggle_like_dislikes :
  Post.dislikes (toggle_like u p) = Js.without u (Post.dislikes p).
Proof. unfold toggle_like. simpl. now destruct (Js.includes u (Post.likes p)). Qed.

Lemma toggle_dislike_likes :
  Post.likes (toggle_dislike u p) = Js.without u (Post.likes p).
Proof. unfold toggle_dislike. simpl. now destruct (Js.includes u (Post.dislikes p)). Qed.

(** The requester's own membership in the target array flips. *)
Lemma toggle_like_self :
  Js.includes u (Post.likes (toggle_like u p)) = negb (Js.includes u (Post.likes p)).
Proof.
  unfold toggle_like. simpl.
  destruct (Js.includes u (Post.likes p)) eqn:H; simpl.
  - apply includes_false, not_In_without.
  - apply includes_In, In_push. now right.
Qed.

Lemma toggle_dislike_self :
  Js.includes u (Post.dislikes (toggle_dislike u p))
  = negb (Js.includes u (Post.dislikes p)).
Proof.
  unfold toggle_dislike. simpl.
  destruct (Js.includes u (Post.dislikes p)) eqn:H; simpl.
  - apply includes_false, not_In_without.
  - apply includes_In, In_push. now right.
Qed.

(** Everybody else's membership in the target array stays. *)
Lemma toggle_like_other e :
  e <> u -> (In e (Post.likes (toggle_like u p)) <-> In e (Post.likes p)).
Proof.
  intros Hne. unfold toggle_like. simpl.
  destruct (Js.includes u (Post.likes p)); simpl.
  - rewrite In_without. tauto.
  - rewrite In_push. tauto.
Qed.

Lemma toggle_dislike_other e :
  e <> u -> (In e (Post.dislikes (toggle_dislike u p)) <-> In e (Post.dislikes p)).
Proof.
  intros Hne. unfold toggle_dislike. simpl.
  destruct (Js.includes u (Post.dislikes p)); simpl.
  - rewrite In_without. tauto.
  - rewrite In_push. tauto.
Qed.

Lemma toggle_like_exclusive : exclusive p -> exclusive (toggle_like u p).
Proof.
  intros Hp e [Hl Hd]. rewrite toggle_like_dislikes, In_without in Hd.
  destruct Hd as [Hd Hne]. apply (Hp e). split; [|assumption].
  now apply toggle_like_other.
Qed.

Lemma toggle_dislike_exclusive : exclusive p -> exclusive (toggle_dislike u p).
Proof.
  intros Hp e [Hl Hd]. rewrite toggle_dislike_likes, In_without in Hl.
  destruct Hl as [Hl Hne]. apply (Hp e). split; [assumption|].
  now apply toggle_dislike_other.
Qed.

(** Whatever the post was, the requester is in at most one of the two
    arrays afterwards. *)
Lemma toggle_like_requester :
  ~ In u (Post.dislikes (toggle_like u p)).
Proof. rewrite toggle_like_dislikes. apply not_In_without. Qed.

Lemma toggle_dislike_requester :
  ~ In u (Post.likes (toggle_dislike u p)).
Proof. rewrite toggle_dislike_likes. apply not_In_without. Qed.

End Toggle.

Lemma without_without u l : Js.without u (Js.without u l) = Js.without u l.
Proof.
  unfold Js.without. induction l as [|e l IH]; simpl; [reflexivity|].
  destruct (e =? u)%string eqn:He; simpl; [assumption|].
  rewrite He. simpl. now rewrite IH.
Qed.

(** Two likes in a row, on the record. *)
Lemma toggle_like_twice_self u p :
  Js.includes u (Post.likes (toggle_like u (toggle_like u p)))
  = Js.includes u (Post.likes p).
Proof. now rewrite !toggle_like_self, negb_involutive. Qed.

Lemma toggle_like_twice_In u p :
  In u (Post.likes (toggle_like u (toggle_like u p))) <-> In u (Post.likes p).
Proof. now rewrite <- !includes_In, toggle_like_twice_self. Qed.

Lemma toggle_like_twice_other u p e :
  e <> u ->
  (In e (Post.likes (toggle_like u (toggle_like u p))) <-> In e (Post.likes p)).
Proof. intros H. now rewrite !toggle_like_other. Qed.

Lemma toggle_like_twice_dislikes u p :
  Post.dislikes (toggle_like u (toggle_like u p)) = Js.without u (Post.dislikes p).
Proof. now rewrite !toggle_like_dislikes, without_without. Qed.

(* ================================================================== *)
(** * What each handler leaves in [blogs.json] *)
(* ================================================================== *)

Lemma In_assign {A} i (y x : A) l : In x (Js.assign i y l) -> x = y \/ In x l.
Proof.
  revert i. induction l as [|z l IH]; intros [|i]; simpl; try tauto.
  - intuition auto.
  - intros [->|H]; [tauto|]. destruct (IH _ H); tauto.
Qed.

Lemma In_splice1 {A} i (x : A) l : In x (Js.splice1 i l) -> In x l.
Proof.
  unfold Js.splice1. revert i. induction l as [|z l IH]; intros [|i].
  - tauto.
  - simpl. tauto.
  - simpl. tauto.
  - cbn [firstn skipn app]. intros [->|H]; [now left|]. right. eapply IH, H.
Qed.

Lemma find_ref_In {A} (pred : A -> bool) arr i x :
  Js.find_ref pred arr = Some (i, x) -> In x arr.
Proof.
  intros H. destruct (find_ref_Some _ _ _ _ H) as (before & rest & -> & _).
  apply in_elt.
Qed.

(** Tactic: run a handler on a context, one monadic step at a time. *)
Ltac run :=
  unfold after, response, handle, listPosts, get_login, login, logout,
    get_signup, signup, get_new_post, createPost, deletePost, like, dislike,
    me, requireAuth, request, readJSON, writeJSON, set_session, hash,
    compare, log, bind, ret;
  cbn [disk session_user trace fst snd].

(** Every handler keeps the posts it does not touch; a new post has no
    reactions; a reaction replaces one post by its toggled version. *)
Lemma handle_posts env req c p :
  In p (contents blogs_json (disk (after (handle env req c)))) ->
  In p (contents blogs_json (disk c))
  \/ (Post.likes p = [] /\ Post.dislikes p = [])
  \/ (exists u q, In q (contents blogs_json (disk c))
                  /\ (p = toggle_like u q \/ p = toggle_dislike u q)).
Proof.
  destruct req; run.
  - (* GET / *) auto.
  - (* GET /login *) destruct (isLoggedIn c); auto.
  - (* POST /login *)
    destruct (find _ (contents admins_json (disk c))) as [adm|].
    + destruct (negb _); cbn; auto.
      destruct password; cbn; auto. destruct (bcrypt_compare _ _ _); cbn; auto.
    + destruct (find _ (contents users_json (disk c))) as [usr|]; cbn; auto.
      destruct password; cbn; auto. destruct (bcrypt_compare _ _ _); cbn; auto.
  - (* POST /logout *) auto.
  - (* GET /signup *) destruct (isLoggedIn c); auto.
  - (* POST /signup *)
    destruct (negb (Js.truthy email) || negb (Js.truthy password)); cbn; auto.
    destruct (Js.some _ _ || Js.some _ _); cbn; auto.
  - (* GET /posts/new *) destruct (session_user c); cbn; auto.
  - (* POST /posts *)
    destruct (session_user c) as [u|]; cbn; auto.
    unfold contents at 1. cbn. intros H. apply In_push in H as [H| ->]; auto.
  - (* DELETE /posts/:id *)
    destruct (session_user c) as [u|]; cbn; auto.
    destruct (Js.findIndex _ _) as [idx|]; cbn; auto.
    destruct (nth_error _ idx) as [post|]; cbn; auto.
    destruct (negb _ && negb _); cbn; auto.
    unfold contents at 1. cbn. intros H. left. eapply In_splice1, H.
  - (* POST /posts/:id/like *)
    destruct (session_user c) as [usr|]; cbn; auto.
    destruct (Js.find_ref _ _) as [[ref post]|] eqn:Hf; cbn; auto.
    unfold contents at 1. cbn. intros H.
    apply In_assign in H as [-> | H]; auto.
    right. right. exists (Session.email usr), post. split; auto.
    eapply find_ref_In, Hf.
  - (* POST /posts/:id/dislike *)
    destruct (session_user c) as [usr|]; cbn; auto.
    destruct (Js.find_ref _ _) as [[ref post]|] eqn:Hf; cbn; auto.
    unfold contents at 1. cbn. intros H.
    apply In_assign in H as [-> | H]; auto.
    right. right. exists (Session.email usr), post. split; auto.
    eapply find_ref_In, Hf.
  - (* GET /me *) auto.
Qed.

Lemma handle_exclusive env req c :
  Exclusive (disk c) -> Exclusive (disk (after (handle env req c))).
Proof.
  intros Hc p Hp.
  destruct (handle_posts _ _ _ _ Hp) as [H | [[Hl Hd] | (u & q & Hq & [-> | ->])]].
  - now apply Hc.
  - intros e [He _]. rewrite Hl in He. contradiction.
  - apply toggle_like_exclusive, Hc, Hq.
  - apply toggle_dislike_exclusive, Hc, Hq.
Qed.

(** C1.  Reaction invariant: if no email is in both [likes] and [dislikes]
    of any post before a request, none is after it, whatever the request
    is ([like], [dislike], [createPost], [deletePost], [signup], [login]
    or any other route) and whoever sends it; hence also after any
    sequence of requests. *)
Theorem reactions_stay_exclusive :
  forall env req c,
    Exclusive (disk c) ->
    Exclusive (disk (after (handle env req c)))
    /\ forall reqs, Exclusive (serve reqs (disk (after (handle env req c)))).
Proof.
  intros env req c Hc.
  assert (H1 : Exclusive (disk (after (handle env req c))))
    by now apply handle_exclusive.
  split; [assumption|].
  intros reqs. revert H1. generalize (disk (after (handle env req c))).
  induction reqs as [|[[env' s] req'] reqs IH]; intros d Hd; simpl.
  - assumption.
  - apply IH. now apply (handle_exclusive env' req' (mkCtx d s [])).
Qed.

Lemma reactions_stay_exclusive_witness :
  Exclusive one_post
  /\ Exclusive (disk (after (handle (example_env "id" 0) (POST_dislike "V1StGXR8_Z")
                               (mkCtx one_post (Some alice) [])))).
Proof.
  assert (H : Exclusive one_post) by (apply Exclusive_forallb; reflexivity).
  split; [exact H|].
  exact (proj1 (reactions_stay_exclusive (example_env "id" 0)
                  (POST_dislike "V1StGXR8_Z")
                  (mkCtx one_post (Some alice) []) H)).
Defined.

(* ================================================================== *)
(** * Deleting a post *)
(* ================================================================== *)

Lemma find_has_id_None id posts :
  find (has_id id) posts = None <-> forall p, In p posts -> Post.id p <> id.
Proof.
  split.
  - intros H p Hp Hid. apply (find_none _ _ H) in Hp.
    unfold has_id in Hp. rewrite Hid, String.eqb_refl in Hp. discriminate.
  - intros H. destruct (find (has_id id) posts) as [p|] eqn:Hf; [|reflexivity].
    apply find_some in Hf as [Hp Hid]. apply String.eqb_eq in Hid.
    now destruct (H p Hp).
Qed.

Lemma none_before id (before : list Post.t) :
  forallb (fun y => negb (has_id id y)) before = true ->
  forall q, In q before -> Post.id q <> id.
Proof.
  rewrite forallb_forall. intros H q Hq Hid. specialize (H q Hq).
  unfold has_id in H. rewrite Hid, String.eqb_refl in H. discriminate.
Qed.

Lemma findIndex_None_find {A} (pred : A -> bool) arr :
  find pred arr = None -> Js.findIndex pred arr = None.
Proof.
  rewrite <- find_ref_find, <- find_ref_findIndex.
  now destruct (Js.find_ref pred arr) as [[i x]|].
Qed.

Lemma find_ref_middle {A} (pred : A -> bool) before x rest :
  forallb (fun y => negb (pred y)) before = true ->
  pred x = true ->
  Js.find_ref pred (before ++ x :: rest) = Some (List.length before, x).
Proof.
  intros Hb Hx. induction before as [|y before IH]; simpl in *.
  - now rewrite Hx.
  - apply andb_true_iff in Hb as [Hy Hb]. apply negb_true_iff in Hy.
    now rewrite Hy, IH.
Qed.

Lemma findIndex_middle {A} (pred : A -> bool) before x rest :
  forallb (fun y => negb (pred y)) before = true ->
  pred x = true ->
  Js.findIndex pred (before ++ x :: rest) = Some (List.length before).
Proof.
  intros Hb Hx. rewrite <- find_ref_findIndex.
  now rewrite find_ref_middle.
Qed.

(** The run of [deletePost] on a store split around the first post with
    the id. *)
Lemma deletePost_found id d requester t before post rest :
  contents blogs_json d = before ++ post :: rest ->
  forallb (fun y => negb (has_id id y)) before = true ->
  has_id id post = true ->
  deletePost id (mkCtx d (Some requester) t)
  = if isAdmin (mkCtx d (Some requester) t)
       || (Post.authorEmail post =? Session.email requester)%string
    then (redirect "/",
          mkCtx (store blogs_json (before ++ rest) d) (Some requester)
            (t ++ [ReadFile "blogs.json"; WriteFile "blogs.json"]))
    else (Forbidden, mkCtx d (Some requester) (t ++ [ReadFile "blogs.json"])).
Proof.
  intros Hposts Hb Hid. run. rewrite Hposts.
  rewrite findIndex_middle by assumption. cbn.
  rewrite nth_error_middle, splice1_middle. unfold isAdmin. cbn.
  destruct (match Session.role requester with admin => true | user => false end);
    cbn; [now rewrite <- app_assoc|].
  destruct (Post.authorEmail post =? Session.email requester)%string; cbn;
    [now rewrite <- app_assoc|reflexivity].
Qed.

Lemma deletePost_missing id d requester t :
  find (has_id id) (contents blogs_json d) = None ->
  deletePost id (mkCtx d (Some requester) t)
  = (NotFound, mkCtx d (Some requester) (t ++ [ReadFile "blogs.json"])).
Proof.
  intros Hf. apply findIndex_None_find in Hf. run. now rewrite Hf.
Qed.

(** C2.  [deletePost(id, requester)], for a logged-in requester:
    - when no post has the id, it answers [NotFound] and leaves the files
      as they are;
    - when the requester is neither an admin nor the author of the (first)
      post with the id, it answers [Forbidden] and leaves the files as
      they are, so the post stays;
    - otherwise [blogs.json] is written and afterwards holds the posts it
      held without exactly that post: the posts before and after it stay,
      in their order; the other two files are not touched. *)
Theorem deletePost_spec :
  forall id d requester t,
    let c := mkCtx d (Some requester) t in
    let posts := contents blogs_json d in
    let r := deletePost id c in
    match find (has_id id) posts with
    | None =>
        (forall p, In p posts -> Post.id p <> id)
        /\ response r = NotFound /\ disk (after r) = d
    | Some post =>
        Post.id post = id /\
        if isAdmin c || (Post.authorEmail post =? Session.email requester)%string
        then
          response r = redirect "/"
          /\ exists before rest,
               posts = before ++ post :: rest
               /\ (forall q, In q before -> Post.id q <> id)
               /\ blogs_file (disk (after r)) = Some (before ++ rest)
               /\ contents blogs_json (disk (after r)) = before ++ rest
               /\ List.length (contents blogs_json (disk (after r)))
                  + 1 = List.length posts
               /\ admins_file (disk (after r)) = admins_file d
               /\ users_file (disk (after r)) = users_file d
               /\ trace (after r)
                  = t ++ [ReadFile "blogs.json"; WriteFile "blogs.json"]
        else
          response r = Forbidden /\ disk (after r) = d
          /\ In post (contents blogs_json (disk (after r)))
    end.
Proof.
  intros id d requester t c posts r. subst c posts r.
  destruct (find (has_id id) (contents blogs_json d)) as [post|] eqn:Hf.
  - destruct (find_split _ _ _ Hf) as (before & rest & Hposts & Hid & Hb & _).
    split; [now apply String.eqb_eq in Hid|].
    rewrite (deletePost_found _ _ _ _ _ _ _ Hposts Hb Hid).
    destruct (isAdmin _ || _); cbn.
    + split; [reflexivity|]. exists before, rest.
      split; [exact Hposts|]. split; [exact (none_before _ _ Hb)|].
      split; [reflexivity|]. split; [reflexivity|].
      split; [|repeat split].
      rewrite Hposts, !length_app. cbn. lia.
    + repeat split. rewrite Hposts. apply in_elt.
  - split; [now apply find_has_id_None|].
    now rewrite deletePost_missing.
Qed.

(** Alice, an ordinary user, deletes her own post, the second of two:
    [blogs.json] then holds Bob's post alone. *)
Lemma deletePost_spec_witness :
  let r := deletePost "Uakgb_J5m9" (mkCtx two_posts (Some alice) []) in
  response r = redirect "/"
  /\ blogs_file (disk (after r)) = Some [bobs_post]
  /\ trace (after r) = [ReadFile "blogs.json"; WriteFile "blogs.json"].
Proof.
  intros r.
  pose proof (deletePost_spec "Uakgb_J5m9" two_posts alice []) as H.
  cbv zeta in H. change (find _ _) with (Some alices_post) in H.
  cbv beta iota in H.
  change (isAdmin _ || _) with true in H. cbv iota in H.
  destruct H as (_ & Hresp & before & rest & Hposts & Hnone & Hfile & H).
  destruct H as (_ & _ & _ & _ & Htrace).
  split; [exact Hresp|]. split; [|exact Htrace].
  fold r in Hfile. rewrite Hfile. f_equal.
  destruct before as [|p before]; cbn in Hposts.
  - injection Hposts as Hp _. discriminate Hp.
  - injection Hposts as Hp Hrest. subst p.
    destruct before as [|q before]; cbn in Hrest.
    + injection Hrest as Hrest. subst rest. reflexivity.
    + injection Hrest as _ Hrest. destruct before; discriminate Hrest.
Defined.

Example deletePost_by_a_stranger :
  deletePost "V1StGXR8_Z" (mkCtx one_post (Some alice) [])
  = (Forbidden, mkCtx one_post (Some alice) [ReadFile "blogs.json"]).
Proof. reflexivity. Qed.

Example deletePost_by_an_admin :
  deletePost "V1StGXR8_Z" (mkCtx one_post (Some root) [])
  = (redirect "/",
     mkCtx (mkDisk None None (Some [])) (Some root)
       [ReadFile "blogs.json"; WriteFile "blogs.json"]).
Proof. reflexivity. Qed.

(* ================================================================== *)
(** * Liking twice *)
(* ================================================================== *)

(** The run of [like] on a store split around the first post with the id. *)
Lemma like_found id d requester t before post rest :
  contents blogs_json d = before ++ post :: rest ->
  forallb (fun y => negb (has_id id y)) before = true ->
  has_id id post = true ->
  like id (mkCtx d (Some requester) t)
  = (redirect "/",
     mkCtx (store blogs_json
              (before ++ toggle_like (Session.email requester) post :: rest) d)
       (Some requester)
       (t ++ [ReadFile "blogs.json"; WriteFile "blogs.json"])).
Proof.
  intros Hposts Hb Hid. run. rewrite Hposts.
  rewrite find_ref_middle by assumption. cbn.
  now rewrite assign_middle, <- app_assoc.
Qed.

Lemma has_id_toggle_like id u post :
  has_id id (toggle_like u post) = has_id id post.
Proof. unfold has_id. now rewrite toggle_like_id. Qed.

(** Two [like] requests in a row by the same requester: the first post
    with the id is toggled twice where it stands. *)
Lemma like_twice id d requester t post :
  find (has_id id) (contents blogs_json d) = Some post ->
  exists before rest,
    contents blogs_json d = before ++ post :: rest
    /\ forallb (fun y => negb (has_id id y)) before = true
    /\ has_id id post = true
    /\ after (like id (after (like id (mkCtx d (Some requester) t))))
       = mkCtx (store blogs_json
                  (before
                   ++ toggle_like (Session.email requester)
                        (toggle_like (Session.email requester) post) :: rest) d)
           (Some requester)
           ((t ++ [ReadFile "blogs.json"; WriteFile "blogs.json"])
            ++ [ReadFile "blogs.json"; WriteFile "blogs.json"]).
Proof.
  intros Hf.
  destruct (find_split _ _ _ Hf) as (before & rest & Hposts & Hid & Hb & _).
  exists before, rest. repeat (split; [assumption|]).
  rewrite (like_found _ _ _ _ _ _ _ Hposts Hb Hid). unfold after at 2. cbn [snd].
  erewrite like_found; [reflexivity | reflexivity | assumption |].
  now rewrite has_id_toggle_like.
Qed.

(** C3, as the specification states it, fails: Alice already likes Bob's
    post; after her two [like] requests in a row the post is as it was, and
    she is in its [likes] again, not without a reaction. *)
Lemma like_twice_on_a_liked_post :
  let c2 := liked_twice "V1StGXR8_Z" (mkCtx one_post (Some alice) []) in
  find (has_id "V1StGXR8_Z") (contents blogs_json (disk c2)) = Some bobs_post
  /\ In (Session.email alice) (Post.likes bobs_post).
Proof. split; [reflexivity | now left]. Qed.

(** C3, amended.  For an existing post and a requester who is not in its
    [likes], two [like] requests in a row net to no reaction: afterwards
    the requester is in neither array.  A requester who is in [likes]
    before is in [likes], and not in [dislikes], after the two requests. *)
Theorem like_twice_no_reaction :
  forall id d requester t post,
    find (has_id id) (contents blogs_json d) = Some post ->
    let u := Session.email requester in
    exists post2,
      find (has_id id)
        (contents blogs_json (disk (liked_twice id (mkCtx d (Some requester) t))))
      = Some post2
      /\ (~ In u (Post.likes post) ->
          ~ In u (Post.likes post2) /\ ~ In u (Post.dislikes post2))
      /\ (In u (Post.likes post) ->
          In u (Post.likes post2) /\ ~ In u (Post.dislikes post2)).
Proof.
  intros id d requester t post Hf u.
  destruct (like_twice id d requester t post Hf)
    as (before & rest & Hposts & Hb & Hid & Hrun).
  exists (toggle_like u (toggle_like u post)).
  unfold liked_twice. rewrite Hrun. cbn.
  split.
  - apply find_middle; [assumption|]. now rewrite !has_id_toggle_like.
  - rewrite toggle_like_twice_In, toggle_like_twice_dislikes.
    split; intros H; (split; [exact H | apply not_In_without]).
Qed.

Lemma like_twice_no_reaction_witness :
  let d := mkDisk None None (Some [Post.set_likes [] bobs_post]) in
  find (has_id "V1StGXR8_Z") (contents blogs_json d)
  = Some (Post.set_likes [] bobs_post)
  /\ exists post2,
       find (has_id "V1StGXR8_Z")
         (contents blogs_json
            (disk (liked_twice "V1StGXR8_Z" (mkCtx d (Some alice) []))))
       = Some post2
       /\ (~ In "a@x.com" (Post.likes (Post.set_likes [] bobs_post)) ->
           ~ In "a@x.com" (Post.likes post2)
           /\ ~ In "a@x.com" (Post.dislikes post2))
       /\ (In "a@x.com" (Post.likes (Post.set_likes [] bobs_post)) ->
           In "a@x.com" (Post.likes post2)
           /\ ~ In "a@x.com" (Post.dislikes post2)).
Proof.
  split; [reflexivity|].
  exact (like_twice_no_reaction "V1StGXR8_Z"
           (mkDisk None None (Some [Post.set_likes [] bobs_post]))
           alice [] (Post.set_likes [] bobs_post) eq_refl).
Defined.

(** C4.  Two [like] requests in a row by the same requester on an existing
    post leave the requester's membership in [likes] as it was before the
    first, and the requester out of [dislikes] either way.  Nothing else
    moves: every other email is in [likes] and in [dislikes] exactly when it
    was, the other fields of the post and the other posts are untouched. *)
Theorem like_twice_restores :
  forall id d requester t post,
    find (has_id id) (contents blogs_json d) = Some post ->
    let u := Session.email requester in
    let posts2 :=
      contents blogs_json (disk (liked_twice id (mkCtx d (Some requester) t))) in
    exists post2,
      find (has_id id) posts2 = Some post2
      /\ (In u (Post.likes post2) <-> In u (Post.likes post))
      /\ ~ In u (Post.dislikes post2)
      /\ (forall e, e <> u ->
            (In e (Post.likes post2) <-> In e (Post.likes post))
            /\ (In e (Post.dislikes post2) <-> In e (Post.dislikes post)))
      /\ (Post.id post2, Post.title post2, Post.content post2,
          Post.authorEmail post2, Post.authorName post2, Post.createdAt post2)
         = (Post.id post, Post.title post, Post.content post,
            Post.authorEmail post, Post.authorName post, Post.createdAt post)
      /\ exists before rest,
           contents blogs_json d = before ++ post :: rest
           /\ posts2 = before ++ post2 :: rest.
Proof.
  intros id d requester t post Hf u posts2. subst posts2.
  destruct (like_twice id d requester t post Hf)
    as (before & rest & Hposts & Hb & Hid & Hrun).
  exists (toggle_like u (toggle_like u post)).
  unfold liked_twice. rewrite Hrun. cbn.
  split; [|split; [|split; [|split; [|split]]]].
  - apply find_middle; [assumption|]. now rewrite !has_id_toggle_like.
  - apply toggle_like_twice_In.
  - rewrite toggle_like_twice_dislikes. apply not_In_without.
  - intros e He. split.
    + now apply toggle_like_twice_other.
    + rewrite toggle_like_twice_dislikes, In_without. tauto.
  - unfold toggle_like. cbn.
    repeat match goal with
           | |- context [if ?b then _ else _] => destruct b; cbn
           end; reflexivity.
  - now exists before, rest.
Qed.

Lemma like_twice_restores_witness :
  find (has_id "V1StGXR8_Z") (contents blogs_json one_post) = Some bobs_post
  /\ exists post2,
       find (has_id "V1StGXR8_Z")
         (contents blogs_json
            (disk (liked_twice "V1StGXR8_Z" (mkCtx one_post (Some bob) []))))
       = Some post2
       /\ (In "b@x.com" (Post.likes post2) <-> In "b@x.com" (Post.likes bobs_post))
       /\ ~ In "b@x.com" (Post.dislikes post2).
Proof.
  split; [reflexivity|].
  destruct (like_twice_restores "V1StGXR8_Z" one_post bob [] bobs_post eq_refl)
    as (post2 & Hfind & Hlikes & Hdislikes & _).
  exists post2. repeat split; solve [assumption | apply Hlikes].
Defined.

(* ================================================================== *)
(** * Signing up *)
(* ================================================================== *)

Lemma truthy_false (v : Js.field) :
  Js.truthy v = false <-> v = None \/ v = Some EmptyString.
Proof.
  destruct v as [s|]; simpl.
  - rewrite negb_false_iff, String.eqb_eq. split.
    + intros ->. now right.
    + intros [H|[= ->]]; [discriminate | reflexivity].
  - tauto.
Qed.

Lemma truthy_Some (s : string) : s <> EmptyString -> Js.truthy (Some s) = true.
Proof. intros H. simpl. now apply negb_true_iff, String.eqb_neq. Qed.

Lemma some_email {A} (email_of : A -> string) (e : string) (l : list A) :
  Js.some (fun a => Js.strict_eq (email_of a) (Some e)) l = true
  <-> In e (map email_of l).
Proof.
  unfold Js.some. rewrite existsb_exists, in_map_iff. simpl.
  split; intros (a & H1 & H2); exists a.
  - split; [now apply String.eqb_eq in H2 | assumption].
  - split; [assumption | now apply String.eqb_eq].
Qed.

(** The test [POST /signup] makes for an email that is taken. *)
Lemma taken_spec (e : string) (d : Disk) :
  Js.some (fun a => Js.strict_eq (Admin.email a) (Some e)) (contents admins_json d)
  || Js.some (fun u => Js.strict_eq (User.email u) (Some e)) (contents users_json d)
  = true
  <-> In e (emails d).
Proof.
  unfold emails. now rewrite orb_true_iff, in_app_iff, !some_email.
Qed.

Lemma signup_invalid env name email password c :
  Js.truthy email = false \/ Js.truthy password = false ->
  signup env name email password c = (ValidationFailed, c).
Proof.
  intros H. unfold signup.
  replace (negb (Js.truthy email) || negb (Js.truthy password)) with true;
    [reflexivity|].
  destruct H as [-> | ->]; simpl; auto using orb_true_r.
Qed.

Lemma signup_taken env name e pw d s t :
  e <> EmptyString -> pw <> EmptyString ->
  In e (emails d) ->
  signup env name (Some e) (Some pw) (mkCtx d s t)
  = (DuplicateEmail,
     mkCtx d s (t ++ [ReadFile "users.json"; ReadFile "admins.json"])).
Proof.
  intros He Hpw Hin. unfold signup.
  rewrite (truthy_Some e He), (truthy_Some pw Hpw). run.
  cbn [negb orb disk session_user trace].
  apply taken_spec in Hin. rewrite Hin. cbn. now rewrite <- app_assoc.
Qed.

Lemma signup_fresh env name e pw d s t :
  e <> EmptyString -> pw <> EmptyString ->
  ~ In e (emails d) ->
  signup env name (Some e) (Some pw) (mkCtx d s t)
  = (redirect "/login",
     mkCtx (store users_json
              (contents users_json d
               ++ [User.mk (Js.or_else name "") e (bcrypt_hash env pw 10) (now env)])
              d)
       s
       (t ++ [ReadFile "users.json"; ReadFile "admins.json"; Hash;
              WriteFile "users.json"])).
Proof.
  intros He Hpw Hin. unfold signup.
  rewrite (truthy_Some e He), (truthy_Some pw Hpw). run.
  cbn [negb orb disk session_user trace].
  rewrite <- taken_spec in Hin. apply not_true_is_false in Hin. rewrite Hin.
  cbn. unfold Js.push. now rewrite <- !app_assoc.
Qed.

(** One signup keeps the emails unique, whatever is submitted. *)
Lemma signup_unique env name email password c :
  Unique (disk c) -> Unique (disk (after (signup env name email password c))).
Proof.
  intros Hc. destruct c as [d s t].
  destruct (Js.truthy email) eqn:He; [|now rewrite signup_invalid by auto].
  destruct (Js.truthy password) eqn:Hp; [|now rewrite signup_invalid by auto].
  destruct email as [e|]; [|discriminate]. destruct password as [pw|]; [|discriminate].
  assert (He' : e <> EmptyString)
    by (intros ->; discriminate).
  assert (Hp' : pw <> EmptyString)
    by (intros ->; discriminate).
  destruct (in_dec string_dec e (emails d)) as [Hin|Hin].
  - now rewrite signup_taken.
  - rewrite signup_fresh by assumption. unfold after, Unique, emails in *. cbn.
    unfold contents at 2. cbn. rewrite map_app, app_assoc. cbn.
    apply NoDup_app_remove_l with (l := []). cbn.
    apply Permutation_NoDup with (l := e :: emails d).
    + unfold emails. apply Permutation_cons_append.
    + now constructor.
Qed.

Lemma signups_unique reqs d : Unique d -> Unique (signups reqs d).
Proof.
  revert d. induction reqs as [|[[env s] [[name email] password]] reqs IH];
    intros d Hd; simpl; [assumption|].
  apply IH. now apply (signup_unique env name email password (mkCtx d s [])).
Qed.

(** C5, as the specification states it, fails when the password is empty:
    the email ["c@x.com"] belongs to no account, yet no user record is
    appended; and ["a@x.com"] belongs to Alice, yet the failure is the
    validation one, not [DuplicateEmail]. *)
Lemma signup_without_password :
  let c := mkCtx two_accounts None [] in
  ~ In "c@x.com" (emails two_accounts)
  /\ signup (example_env "id" 0) (Some "Carol") (Some "c@x.com") (Some EmptyString) c
     = (ValidationFailed, c)
  /\ In "a@x.com" (emails two_accounts)
  /\ signup (example_env "id" 0) (Some "Al") (Some "a@x.com") (Some EmptyString) c
     = (ValidationFailed, c)
  /\ ValidationFailed <> DuplicateEmail.
Proof.
  repeat split; try reflexivity.
  - cbn. intros [H|[H|[]]]; discriminate.
  - cbn. auto.
  - discriminate.
Qed.

(** C5, amended.  [signup(name, email, password)] with the three fields
    submitted as strings (or left out), the email and the password
    non-empty: when the email occurs, as it is written, in the admin list
    or in the user list, it fails with [DuplicateEmail] and leaves the
    files as they are; otherwise [users.json] is written and afterwards
    holds the records it held followed by exactly one new record, with
    that email, the name submitted, the hash of the password and the
    instant of the clock; the other two files are not touched.  And for
    any sequence of signups with fields submitted as strings or left out:
    if emails are unique across admins and users at the start, they are
    still unique afterwards. *)
Theorem signup_spec :
  forall env name email password d s t,
    email <> EmptyString -> password <> EmptyString ->
    let r := signup env name (Some email) (Some password) (mkCtx d s t) in
    (In email (emails d) ->
     response r = DuplicateEmail /\ disk (after r) = d)
    /\ (~ In email (emails d) ->
        response r = redirect "/login"
        /\ exists record,
             record = User.mk (Js.or_else name "") email
                        (bcrypt_hash env password 10) (now env)
             /\ users_file (disk (after r))
                = Some (contents users_json d ++ [record])
             /\ contents users_json (disk (after r))
                = contents users_json d ++ [record]
             /\ admins_file (disk (after r)) = admins_file d
             /\ blogs_file (disk (after r)) = blogs_file d
             /\ emails (disk (after r)) = emails d ++ [email])
    /\ (Unique d -> forall reqs, Unique (signups reqs d)).
Proof.
  intros env name email password d s t He Hp r. subst r.
  split; [|split].
  - intros Hin. now rewrite signup_taken.
  - intros Hin. rewrite signup_fresh by assumption. split; [reflexivity|].
    eexists. split; [reflexivity|]. cbn.
    repeat split. unfold emails. cbn. unfold contents at 2. cbn.
    now rewrite map_app, app_assoc.
  - intros Hd reqs. now apply signups_unique.
Qed.

Lemma signup_spec_witness :
  let env := example_env "id" 1700000000002 in
  let carol := (Some "Carol", Some "c@x.com", Some "pw3") in
  let r := signup env (Some "Carol") (Some "c@x.com") (Some "pw3")
             (mkCtx two_accounts None []) in
  "c@x.com" <> EmptyString /\ "pw3" <> EmptyString
  /\ ~ In "c@x.com" (emails two_accounts)
  /\ Unique two_accounts
  /\ response r = redirect "/login"
  /\ users_file (disk (after r))
     = Some [alice_account;
             User.mk "Carol" "c@x.com" (example_hash "pw3" 10) 1700000000002]
  /\ emails (signups [(env, None, carol); (env, None, carol)] two_accounts)
     = ["admin@example.com"; "a@x.com"; "c@x.com"]
  /\ Unique (signups [(env, None, carol); (env, None, carol)] two_accounts).
Proof.
  intros env carol r.
  assert (He : "c@x.com" <> EmptyString) by discriminate.
  assert (Hp : "pw3" <> EmptyString) by discriminate.
  assert (Hfresh : ~ In "c@x.com" (emails two_accounts))
    by (cbn; intros [H|[H|[]]]; discriminate).
  assert (Hu : Unique two_accounts).
  { unfold Unique. cbn. repeat constructor; cbn; intuition discriminate. }
  destruct (signup_spec env (Some "Carol") "c@x.com" "pw3"
              two_accounts None [] He Hp) as (_ & Hnew & Hseq).
  destruct (Hnew Hfresh) as (Hresp & record & -> & Hfile & _).
  split; [exact He|]. split; [exact Hp|]. split; [exact Hfresh|].
  split; [exact Hu|]. split; [exact Hresp|]. split; [exact Hfile|].
  split; [reflexivity | exact (Hseq Hu _)].
Defined.

(** C9.  [signup] with an email or a password that is missing or empty
    answers with the validation error and does nothing else: the context
    comes back as it was, so no file was read (the duplicate check was not
    reached), nothing was hashed, and [users.json] was not written. *)
Theorem signup_validates_first :
  forall env name email password c,
    email = None \/ email = Some EmptyString
    \/ password = None \/ password = Some EmptyString ->
    signup env name email password c = (ValidationFailed, c)
    /\ trace (after (signup env name email password c)) = trace c
    /\ contents users_json (disk (after (signup env name email password c)))
       = contents users_json (disk c).
Proof.
  intros env name email password c H.
  assert (Hrun : signup env name email password c = (ValidationFailed, c)).
  { apply signup_invalid. rewrite !truthy_false. tauto. }
  rewrite Hrun. auto.
Qed.

Lemma signup_validates_first_witness :
  (Some "a@x.com" = None \/ Some "a@x.com" = Some EmptyString
   \/ @None string = None \/ @None string = Some EmptyString)
  /\ signup (example_env "id" 0) (Some "Al") (Some "a@x.com") None
       (mkCtx two_accounts None [])
     = (ValidationFailed, mkCtx two_accounts None []).
Proof.
  assert (H : Some "a@x.com" = None \/ Some "a@x.com" = Some EmptyString
              \/ @None string = None \/ @None string = Some EmptyString)
    by (right; right; left; reflexivity).
  split; [exact H|].
  exact (proj1 (signup_validates_first (example_env "id" 0) (Some "Al")
                  (Some "a@x.com") None (mkCtx two_accounts None []) H)).
Defined.

(* ================================================================== *)
(** * Logging in *)
(* ================================================================== *)

Lemma find_email_None {A} (email_of : A -> string) (e : string) (l : list A) :
  find (fun a => (email_of a =? e)%string) l = None -> ~ In e (map email_of l).
Proof.
  intros H Hin. apply in_map_iff in Hin as (a & Ha & Hin).
  apply (find_none _ _ H) in Hin. cbn in Hin.
  rewrite Ha, String.eqb_refl in Hin. discriminate.
Qed.

Lemma find_email_Some {A} (email_of : A -> string) (e : string) (l : list A) :
  In e (map email_of l) ->
  exists a, find (fun a => (email_of a =? e)%string) l = Some a /\ email_of a = e.
Proof.
  intros Hin. destruct (find _ l) as [a|] eqn:Hf.
  - exists a. split; [reflexivity|]. apply find_some in Hf as [_ Hf].
    now apply String.eqb_eq in Hf.
  - now apply find_email_None in Hf.
Qed.

(** The run of [login] on a request that has an email and no password:
    [bcrypt.compare(undefined, hash)] is reached whenever an account with
    a hash is found, and its rejection is not caught. *)
Lemma login_missing_password env email d s t :
  login env (Some email) None (mkCtx d s t)
  = match find (fun a => (Admin.email a =? email)%string) (contents admins_json d) with
    | Some adm =>
        if Js.truthy (Admin.password_hash adm)
        then (rejected (Error "Illegal arguments: undefined, string"),
              mkCtx d s (t ++ [ReadFile "admins.json"; ReadFile "users.json"; Compare]))
        else (AdminNotConfigured,
              mkCtx d s (t ++ [ReadFile "admins.json"; ReadFile "users.json"]))
    | None =>
        match find (fun u => (User.email u =? email)%string) (contents users_json d) with
        | Some _ =>
            (rejected (Error "Illegal arguments: undefined, string"),
             mkCtx d s (t ++ [ReadFile "admins.json"; ReadFile "users.json"; Compare]))
        | None =>
            (InvalidCredentials,
             mkCtx d s (t ++ [ReadFile "admins.json"; ReadFile "users.json"]))
        end
    end.
Proof.
  run. cbn [Js.strict_eq].
  destruct (find _ (contents admins_json d)) as [adm|].
  - destruct (Js.truthy (Admin.password_hash adm)); cbn;
      now rewrite <- !app_assoc.
  - destruct (find _ (contents users_json d)) as [usr|]; cbn;
      now rewrite <- !app_assoc.
Qed.

(** C6.  The code misses a case.  A login that names an existing account
    and carries no password does not fail with [InvalidCredentials]: the
    handler hands the missing password to [bcrypt.compare], which rejects
    it, and nothing catches the rejection, so the request ends in an error
    instead of the login page with its message.  The signup handler, next
    to it, does check for a missing password.  (With a password that is a
    string the handler behaves as the specification says: X21.) *)
Theorem login_without_a_password :
  let env := example_env "id" 0 in
  let c := mkCtx two_accounts None [] in
  login env (Some "a@x.com") None c
  = (rejected (Error "Illegal arguments: undefined, string"),
     mkCtx two_accounts None
       [ReadFile "admins.json"; ReadFile "users.json"; Compare])
  /\ response (login env (Some "a@x.com") None c) <> InvalidCredentials
  /\ response (login env (Some "nobody@x.com") None c) = InvalidCredentials
  /\ response (login env (Some "a@x.com") (Some "wrong") c) = InvalidCredentials
  /\ signup env None (Some "a@x.com") None c = (ValidationFailed, c).
Proof.
  intros env c. subst c.
  rewrite !login_missing_password. cbn.
  repeat split; try reflexivity. discriminate.
Qed.

(** X21.  [login(email, password)] with an email and a password that are
    strings looks the email up in the admin list first and in the user
    list only when no admin has it.
    - No account with the email: [InvalidCredentials].
    - The admin found has no password hash (missing or empty):
      [AdminNotConfigured].
    - The password does not match the hash of the account found:
      [InvalidCredentials].
    - It matches: the session records the email, a display name (the
      account's name, or ["Admin"] for an admin and the part of the email
      before the at sign for a user when the name is empty) and the role
      of the list the account was found in, and the answer redirects to
      the front page.
    A failed login leaves the session as it was; none writes a file. *)
Theorem login_spec :
  forall env email password d s t,
    let r := login env (Some email) (Some password) (mkCtx d s t) in
    disk (after r) = d /\
    match find (fun a => (Admin.email a =? email)%string) (contents admins_json d) with
    | Some adm =>
        if Js.truthy (Admin.password_hash adm) then
          if bcrypt_compare env password (as_string (Admin.password_hash adm))
          then
            response r = redirect "/"
            /\ session_user (after r)
               = Some (Session.mk email (Js.or_else (Admin.name adm) "Admin") admin)
          else response r = InvalidCredentials /\ session_user (after r) = s
        else response r = AdminNotConfigured /\ session_user (after r) = s
    | None =>
        match find (fun u => (User.email u =? email)%string) (contents users_json d) with
        | Some usr =>
            if bcrypt_compare env password (User.password_hash usr)
            then
              response r = redirect "/"
              /\ session_user (after r)
                 = Some (Session.mk email
                           (if (User.name usr =? "")%string
                            then Js.before_at email else User.name usr)
                           user)
            else response r = InvalidCredentials /\ session_user (after r) = s
        | None =>
            ~ In email (emails d)
            /\ response r = InvalidCredentials /\ session_user (after r) = s
        end
    end.
Proof.
  intros env email password d s t r. subst r. run.
  cbn [Js.strict_eq].
  destruct (find _ (contents admins_json d)) as [adm|] eqn:Ha.
  - destruct (Js.truthy (Admin.password_hash adm)); cbn; [|auto].
    destruct (bcrypt_compare env password _); cbn; auto.
  - destruct (find _ (contents users_json d)) as [usr|] eqn:Hu; cbn.
    + destruct (bcrypt_compare env password _); cbn; auto.
    + repeat split. unfold emails. rewrite in_app_iff.
      intros [H|H]; [now apply find_email_None in Ha | now apply find_email_None in Hu].
Qed.

(** C10.  When an admin has the email, the outcome of [login] is the same
    whatever the user list holds (and whatever the effects logged before):
    it is decided by the admin record alone.  The session afterwards is
    the one before, or a session with the role [admin]: a user record with
    the same email opens no session, whatever password is sent. *)
Theorem admin_email_shadows_users :
  forall env email password admins users users' blogs blogs' s t t',
    In email (map Admin.email admins) ->
    let r := login env (Some email) password
               (mkCtx (mkDisk (Some admins) users blogs) s t) in
    let r' := login env (Some email) password
                (mkCtx (mkDisk (Some admins) users' blogs') s t') in
    response r = response r'
    /\ session_user (after r) = session_user (after r')
    /\ (session_user (after r) = s
        \/ exists name, session_user (after r) = Some (Session.mk email name admin))
    /\ (response r = redirect "/" ->
        exists name, session_user (after r) = Some (Session.mk email name admin)).
Proof.
  intros env email password admins users users' blogs blogs' s t t' Hin r r'.
  destruct (find_email_Some Admin.email email admins Hin) as (adm & Hf & _).
  subst r r'. run. cbn [Js.strict_eq contents slot admins_file].
  rewrite Hf.
  destruct (negb (Js.truthy (Admin.password_hash adm))); cbn.
  - repeat split; auto. discriminate.
  - destruct password as [pw|]; cbn.
    + destruct (bcrypt_compare env pw _); cbn.
      * repeat split; eauto.
      * repeat split; auto. discriminate.
    + repeat split; auto. discriminate.
Qed.

Lemma admin_email_shadows_users_witness :
  In "admin@example.com" (map Admin.email [configured_admin])
  /\ login (example_env "id" 0) (Some "admin@example.com") (Some "user-pw")
       (mkCtx shadowed None [])
     = (InvalidCredentials,
        mkCtx shadowed None [ReadFile "admins.json"; ReadFile "users.json"; Compare])
  /\ response (login (example_env "id" 0) (Some "admin@example.com") (Some "user-pw")
                 (mkCtx shadowed None []))
     = response (login (example_env "id" 0) (Some "admin@example.com") (Some "user-pw")
                   (mkCtx (mkDisk (admins_file shadowed) None None) None [])).
Proof.
  assert (H : In "admin@example.com" (map Admin.email [configured_admin]))
    by (left; reflexivity).
  split; [exact H|]. split; [reflexivity|].
  exact (proj1 (admin_email_shadows_users (example_env "id" 0) "admin@example.com"
                  (Some "user-pw") _ (users_file shadowed) None None None None [] [] H)).
Defined.

Example login_after_signup :
  let c1 := after (signup (example_env "id" 0) (Some "Alice") (Some "a@x.com")
                     (Some "pw1") (mkCtx (mkDisk None None None) None [])) in
  let r := login (example_env "id" 1) (Some "a@x.com") (Some "pw1") c1 in
  response r = redirect "/"
  /\ session_user (after r) = Some (Session.mk "a@x.com" "Alice" user).
Proof. split; reflexivity. Qed.

Example login_unconfigured_admin :
  response (login (example_env "id" 0) (Some "admin@example.com") (Some "x")
              (mkCtx two_accounts None []))
  = AdminNotConfigured.
Proof. reflexivity. Qed.

(* ================================================================== *)
(** * Listing the posts *)
(* ================================================================== *)

Section Sorting.

Lemma insert_perm (x : Post.t) l :
  Permutation (Js.insert newest_first x l) (x :: l).
Proof.
  induction l as [|y l IH]; simpl; [reflexivity|].
  destruct (newest_first x y <=? 0)%Z; [reflexivity|].
  rewrite IH. apply perm_swap.
Qed.

Lemma sort_perm l : Permutation (Js.sort newest_first l) l.
Proof.
  induction l as [|x l IH]; simpl; [reflexivity|].
  rewrite insert_perm. now constructor.
Qed.

Lemma insert_sorted (x : Post.t) l :
  StronglySorted not_older l ->
  StronglySorted not_older (Js.insert newest_first x l).
Proof.
  induction 1 as [|y l Hl IH Hy]; simpl.
  - repeat constructor.
  - unfold newest_first at 1.
    destruct (Z.leb_spec (Post.createdAt y - Post.createdAt x) 0) as [Hle|Hgt].
    + constructor; [now constructor|].
      constructor; [unfold not_older; lia|].
      rewrite Forall_forall in *. intros z Hz. specialize (Hy z Hz).
      unfold not_older in *. lia.
    + constructor; [assumption|].
      rewrite Forall_forall in *. intros z Hz.
      apply (Permutation_in _ (insert_perm x l)) in Hz as [<-|Hz].
      * unfold not_older. lia.
      * now apply Hy.
Qed.

Lemma sort_sorted l : StronglySorted not_older (Js.sort newest_first l).
Proof.
  induction l as [|x l IH]; simpl; [constructor | now apply insert_sorted].
Qed.

(** The sort is stable: posts of the same instant keep their order. *)
Lemma insert_created_at t (x : Post.t) l :
  created_at t (Js.insert newest_first x l) = created_at t (x :: l).
Proof.
  induction l as [|y l IH]; simpl; [reflexivity|].
  unfold newest_first at 1.
  destruct (Z.leb_spec (Post.createdAt y - Post.createdAt x) 0) as [Hle|Hgt];
    [reflexivity|].
  unfold created_at in *. cbn [filter] in *. rewrite IH.
  destruct (Z.eqb_spec (Post.createdAt x) t) as [Hx|Hx];
    destruct (Z.eqb_spec (Post.createdAt y) t) as [Hy|Hy]; try reflexivity.
  lia.
Qed.

Lemma sort_stable t l :
  created_at t (Js.sort newest_first l) = created_at t l.
Proof.
  induction l as [|x l IH]; simpl; [reflexivity|].
  rewrite insert_created_at. unfold created_at in *. cbn [filter]. now rewrite IH.
Qed.

Lemma created_at_In t p l :
  In p (created_at t l) <-> In p l /\ Post.createdAt p = t.
Proof. unfold created_at. now rewrite filter_In, Z.eqb_eq. Qed.

Lemma created_at_head p l :
  created_at (Post.createdAt p) (p :: l) = p :: created_at (Post.createdAt p) l.
Proof. unfold created_at. cbn [filter]. now rewrite Z.eqb_refl. Qed.

(** Sorted and stable determine the listing: whichever stable sort the
    engine runs, it returns the list [Js.sort] returns. *)
Lemma stable_sorted_unique l1 :
  forall l2,
    StronglySorted not_older l1 -> StronglySorted not_older l2 ->
    (forall t, created_at t l1 = created_at t l2) ->
    l1 = l2.
Proof.
  induction l1 as [|x l1 IH]; intros l2 H1 H2 Hst.
  - destruct l2 as [|y l2]; [reflexivity|].
    specialize (Hst (Post.createdAt y)). rewrite created_at_head in Hst.
    discriminate.
  - destruct l2 as [|y l2].
    + specialize (Hst (Post.createdAt x)). rewrite created_at_head in Hst.
      discriminate.
    + apply StronglySorted_inv in H1 as [H1 Hx].
      apply StronglySorted_inv in H2 as [H2 Hy].
      rewrite Forall_forall in Hx, Hy.
      assert (Hxy : Post.createdAt y = Post.createdAt x).
      { assert (Hx2 : In x (y :: l2)).
        { apply (created_at_In (Post.createdAt x)). rewrite <- Hst.
          rewrite created_at_head. now left. }
        assert (Hy1 : In y (x :: l1)).
        { apply (created_at_In (Post.createdAt y)). rewrite Hst.
          rewrite created_at_head. now left. }
        destruct Hx2 as [->|Hx2]; [reflexivity|].
        destruct Hy1 as [->|Hy1]; [reflexivity|].
        specialize (Hx y Hy1). specialize (Hy x Hx2).
        unfold not_older in *. lia. }
      assert (Heq : x = y).
      { specialize (Hst (Post.createdAt x)).
        rewrite created_at_head, <- Hxy, created_at_head in Hst. congruence. }
      subst y. f_equal. apply IH; try assumption.
      intros t. specialize (Hst t). unfold created_at in *. cbn [filter] in Hst.
      destruct (Post.createdAt x =? t)%Z; congruence.
Qed.

(** Posts created one after the other, at later and later instants, are
    listed in the reverse order. *)
Lemma sort_ascending l :
  StronglySorted (fun a b => (Post.createdAt a < Post.createdAt b)%Z) l ->
  Js.sort newest_first l = rev l.
Proof.
  induction 1 as [|x l Hl IH Hx]; simpl; [reflexivity|].
  rewrite IH. clear IH Hl.
  assert (H : Forall (fun b => (Post.createdAt x < Post.createdAt b)%Z) (rev l))
    by (rewrite Forall_forall in *; intros b Hb; apply Hx; now apply in_rev).
  clear Hx. induction H as [|y l' Hy _ IH]; simpl; [reflexivity|].
  unfold newest_first at 1.
  destruct (Z.leb_spec (Post.createdAt y - Post.createdAt x) 0); [lia|].
  now rewrite IH.
Qed.

End Sorting.

Lemma sort_is_the_stable_sort l l' :
  StronglySorted not_older l' ->
  (forall t, created_at t l' = created_at t l) ->
  l' = Js.sort newest_first l.
Proof.
  intros Hs Hst. apply stable_sorted_unique; [assumption | apply sort_sorted |].
  intros t. now rewrite sort_stable.
Qed.

Lemma listPosts_run c :
  listPosts c
  = (render_index (Js.sort newest_first (contents blogs_json (disk c))),
     mkCtx (disk c) (session_user c) (trace c ++ [ReadFile "blogs.json"])).
Proof. reflexivity. Qed.

Lemma createPost_run env title content d u t :
  exists post,
    createPost env title content (mkCtx d (Some u) t)
    = (redirect "/",
       mkCtx (store blogs_json (contents blogs_json d ++ [post]) d) (Some u)
         (t ++ [ReadFile "blogs.json"; WriteFile "blogs.json"]))
    /\ Post.id post = nanoid env
    /\ Post.createdAt post = now env
    /\ Post.authorEmail post = Session.email u
    /\ Post.likes post = [] /\ Post.dislikes post = [].
Proof.
  eexists. split.
  - run. unfold Js.push. rewrite <- app_assoc. reflexivity.
  - repeat split; reflexivity.
Qed.

Lemma createPost_after env title content c u :
  exists post,
    after (createPost env title content (as_client (Some u) c))
    = mkCtx (store blogs_json (contents blogs_json (disk c) ++ [post]) (disk c))
        (Some u) (trace c ++ [ReadFile "blogs.json"; WriteFile "blogs.json"])
    /\ Post.id post = nanoid env
    /\ Post.createdAt post = now env.
Proof.
  destruct (createPost_run env title content (disk c) u (trace c))
    as (post & Hrun & Hid & Hat & _).
  exists post. unfold as_client. now rewrite Hrun.
Qed.

(** C7, as the specification states it, fails when the clock does not
    move between the creations: three posts stamped with the same
    millisecond are listed in the order they were created, oldest first. *)
Lemma listing_of_one_instant :
  let at_once id := example_env id 1700000000000 in
  let c3 := three_posts (at_once "p1") (at_once "p2") (at_once "p3")
              alice bob alice
              (Some "one", Some "1") (Some "two", Some "2") (Some "three", Some "3")
              empty_store in
  let P1 := Post.mk "p1" "one" "1" "a@x.com" "Alice" 1700000000000 [] [] in
  let P2 := Post.mk "p2" "two" "2" "b@x.com" "Bob" 1700000000000 [] [] in
  let P3 := Post.mk "p3" "three" "3" "a@x.com" "Alice" 1700000000000 [] [] in
  contents blogs_json (disk c3) = [P1; P2; P3]
  /\ response (listPosts c3) = render_index [P1; P2; P3]
  /\ [P1; P2; P3] <> [P3; P2; P1].
Proof. repeat split; try reflexivity. discriminate. Qed.

(** C7, amended.  The listing of [GET /] holds all the posts of the store,
    newest first by creation instant; posts of the same instant come in
    the order they have in the store.  In particular, after creating
    posts P1, P2, P3 in that order, at strictly increasing instants, in a
    store without posts, the listing is [P3, P2, P1]. *)
Theorem listPosts_newest_first :
  forall c,
    (exists listing,
        response (listPosts c) = render_index listing
        /\ Permutation listing (contents blogs_json (disk c))
        /\ StronglySorted not_older listing
        /\ (forall t, created_at t listing
                      = created_at t (contents blogs_json (disk c)))
        /\ disk (after (listPosts c)) = disk c)
    /\ forall e1 e2 e3 u1 u2 u3 b1 b2 b3 s,
         contents blogs_json (disk c) = [] ->
         (now e1 < now e2 < now e3)%Z ->
         let c3 := three_posts e1 e2 e3 u1 u2 u3 b1 b2 b3 c in
         exists P1 P2 P3,
           contents blogs_json (disk c3) = [P1; P2; P3]
           /\ (Post.id P1, Post.id P2, Post.id P3) = (nanoid e1, nanoid e2, nanoid e3)
           /\ (Post.createdAt P1, Post.createdAt P2, Post.createdAt P3)
              = (now e1, now e2, now e3)
           /\ response (listPosts (as_client s c3)) = render_index [P3; P2; P1].
Proof.
  intros c. split.
  - exists (Js.sort newest_first (contents blogs_json (disk c))).
    rewrite listPosts_run. cbn.
    auto using sort_perm, sort_sorted, sort_stable.
  - intros e1 e2 e3 u1 u2 u3 [t1 b1] [t2 b2] [t3 b3] s Hempty Hnow c3.
    subst c3. unfold three_posts. cbn [fst snd].
    destruct (createPost_after e1 t1 b1 c u1) as (P1 & -> & Hid1 & Hat1).
    match goal with
    | |- context [createPost e2 t2 b2 (as_client _ ?c1)] =>
        destruct (createPost_after e2 t2 b2 c1 u2) as (P2 & -> & Hid2 & Hat2)
    end.
    match goal with
    | |- context [createPost e3 t3 b3 (as_client _ ?c2)] =>
        destruct (createPost_after e3 t3 b3 c2 u3) as (P3 & -> & Hid3 & Hat3)
    end.
    cbn [disk trace session_user].
    exists P1, P2, P3. rewrite Hempty.
    cbn [app]. rewrite listPosts_run. unfold as_client, response.
    cbn [disk fst contents slot store blogs_file].
    rewrite Hid1, Hid2, Hid3, Hat1, Hat2, Hat3.
    repeat split. f_equal.
    apply (sort_ascending [P1; P2; P3]).
    repeat constructor; lia.
Qed.

Lemma listPosts_newest_first_witness :
  let e1 := example_env "p1" 1700000000000 in
  let e2 := example_env "p2" 1700000000001 in
  let e3 := example_env "p3" 1700000000002 in
  contents blogs_json (disk empty_store) = []
  /\ (now e1 < now e2 < now e3)%Z
  /\ exists P1 P2 P3,
       contents blogs_json
         (disk (three_posts e1 e2 e3 alice bob alice
                  (Some "one", Some "1") (Some "two", Some "2")
                  (Some "three", Some "3") empty_store))
       = [P1; P2; P3]
       /\ response (listPosts
                      (as_client None
                         (three_posts e1 e2 e3 alice bob alice
                            (Some "one", Some "1") (Some "two", Some "2")
                            (Some "three", Some "3") empty_store)))
          = render_index [P3; P2; P1].
Proof.
  intros e1 e2 e3.
  assert (Hempty : contents blogs_json (disk empty_store) = []) by reflexivity.
  assert (Hnow : (now e1 < now e2 < now e3)%Z) by (cbn; lia).
  split; [exact Hempty|]. split; [exact Hnow|].
  destruct (proj2 (listPosts_newest_first empty_store) e1 e2 e3 alice bob alice
              (Some "one", Some "1") (Some "two", Some "2") (Some "three", Some "3")
              None Hempty Hnow) as (P1 & P2 & P3 & Hstore & _ & _ & Hlist).
  exists P1, P2, P3. split; [exact Hstore | exact Hlist].
Defined.

(* ================================================================== *)
(** * The fuel of [JSON.parse] *)
(* ================================================================== *)

Section Fuel.

Import Fs.

Lemma skip_ws_length s :
  String.length (skip_ws s) <= String.length s.
Proof.
  induction s as [|c s IH]; simpl; [lia|].
  destruct (is_ws c); simpl; lia.
Qed.

Lemma starts_with_length c s r :
  starts_with c s = Some r -> String.length s = S (String.length r).
Proof.
  destruct s as [|c' s]; simpl; [discriminate|].
  destruct (c' =? c)%char; [|discriminate]. now intros [= ->].
Qed.

Lemma digits_length s : String.length (snd (digits s)) <= String.length s.
Proof.
  induction s as [|c s IH]; simpl; [lia|].
  destruct (is_digit c); simpl; [|lia].
  destruct (digits s) as [ds r]. simpl in *. lia.
Qed.

Lemma literal_length lit s r :
  literal lit s = Some r -> String.length r <= String.length s.
Proof.
  revert s. induction lit as [|a lit IH]; intros [|b s]; simpl; try discriminate.
  - intros [= <-]. simpl. lia.
  - intros [= <-]. simpl. lia.
  - destruct (a =? b)%char; [|discriminate]. intros H. apply IH in H. lia.
Qed.

Lemma consed_length c r body rest :
  consed c r = Some (body, rest) -> exists body', r = Some (body', rest).
Proof.
  destruct r as [[b' r']|]; simpl; [|discriminate].
  intros [= <- <-]. now exists b'.
Qed.

Lemma string_body_length n :
  forall s body rest, String.length s <= n ->
    string_body s = Some (body, rest) -> String.length rest < String.length s.
Proof.
  induction n as [|n IH]; intros [|c s] body rest Hn; simpl in *;
    try discriminate; try lia.
  destruct (c =? dquote)%char.
  - intros [= <- <-]. lia.
  - destruct (c =? backslash)%char.
    + destruct s as [|e r1]; [discriminate|].
      destruct (is_simple_escape e).
      * intros H. apply consed_length in H as [b1 H].
        apply consed_length in H as [b2 H].
        apply IH in H; simpl in *; lia.
      * destruct (e =? "u")%char; [|discriminate].
        destruct r1 as [|h1 [|h2 [|h3 [|h4 r2]]]]; try discriminate.
        destruct (is_hex h1 && is_hex h2 && is_hex h3 && is_hex h4); [|discriminate].
        intros H. do 6 (apply consed_length in H as [? H]).
        apply IH in H; simpl in *; lia.
    + destruct (nat_of_ascii c <? 32); [discriminate|].
      intros H. apply consed_length in H as [b1 H].
      apply IH in H; lia.
Qed.

Lemma fraction_length s f r :
  fraction s = Some (f, r) -> String.length r <= String.length s.
Proof.
  unfold fraction. destruct (starts_with "." s) as [r0|] eqn:Hs.
  - apply starts_with_length in Hs. pose proof (digits_length r0) as Hd.
    destruct (digits r0) as [[|d ds] r']; [discriminate|].
    intros [= <- <-]. simpl in *. lia.
  - intros [= <- <-]. lia.
Qed.

Lemma exponent_length s e r :
  exponent s = Some (e, r) -> String.length r <= String.length s.
Proof.
  unfold exponent. destruct s as [|c s]; [intros [= <- <-]; simpl; lia|].
  destruct ((c =? "e")%char || (c =? "E")%char); [|intros [= <- <-]; lia].
  destruct (starts_with "+" s) as [r1|] eqn:Hp.
  - apply starts_with_length in Hp. pose proof (digits_length r1) as Hd.
    destruct (digits r1) as [[|d ds] r2]; [discriminate|].
    intros [= <- <-]. simpl in *. lia.
  - destruct (starts_with "-" s) as [r1|] eqn:Hm.
    + apply starts_with_length in Hm. pose proof (digits_length r1) as Hd.
      destruct (digits r1) as [[|d ds] r2]; [discriminate|].
      intros [= <- <-]. simpl in *. lia.
    + pose proof (digits_length s) as Hd.
      destruct (digits s) as [[|d ds] r2]; [discriminate|].
      intros [= <- <-]. simpl in *. lia.
Qed.

Lemma integer_length s i r :
  integer s = Some (i, r) -> String.length r < String.length s.
Proof.
  destruct s as [|c s]; simpl; [discriminate|].
  destruct (c =? "0")%char; [intros [= <- <-]; simpl; lia|].
  destruct (is_digit c); [|discriminate].
  pose proof (digits_length s) as Hd. destruct (digits s) as [ds r'].
  intros [= <- <-]. simpl in *. lia.
Qed.

Lemma number_length s l r :
  number s = Some (l, r) -> String.length r < String.length s.
Proof.
  unfold number.
  assert (Hrest : forall sign s1,
             String.length s1 <= String.length s ->
             match integer s1 with
             | None => None
             | Some (i, r1) =>
                 match fraction r1 with
                 | None => None
                 | Some (f, r2) =>
                     match exponent r2 with
                     | None => None
                     | Some (e, r3) => Some ((sign ++ i ++ f ++ e)%string, r3)
                     end
                 end
             end = Some (l, r) ->
             String.length r < String.length s).
  { intros sign s1 Hs1.
    destruct (integer s1) as [[i r1]|] eqn:Hi; [|discriminate].
    apply integer_length in Hi.
    destruct (fraction r1) as [[f r2]|] eqn:Hf; [|discriminate].
    apply fraction_length in Hf.
    destruct (exponent r2) as [[e r3]|] eqn:He; [|discriminate].
    apply exponent_length in He. intros [= <- <-]. lia. }
  destruct (starts_with "-" s) as [s1|] eqn:Hs.
  - apply starts_with_length in Hs. apply Hrest. lia.
  - apply Hrest. lia.
Qed.

Lemma value_S f s :
  value (S f) s
  = match skip_ws s with
    | EmptyString => None
    | String c r =>
        if (c =? "[")%char then
          match starts_with "]" (skip_ws r) with
          | Some r' => Some (JArray [], r')
          | None =>
              match elements f r with
              | Some (vs, r') => Some (JArray vs, r')
              | None => None
              end
          end
        else if (c =? "{")%char then
          match starts_with "}" (skip_ws r) with
          | Some r' => Some (JObject [], r')
          | None =>
              match members f r with
              | Some (ms, r') => Some (JObject ms, r')
              | None => None
              end
          end
        else if (c =? dquote)%char then
          match string_body r with
          | Some (body, r') => Some (JString body, r')
          | None => None
          end
        else if (c =? "t")%char then
          option_map (fun r' => (JBool true, r')) (literal "rue" r)
        else if (c =? "f")%char then
          option_map (fun r' => (JBool false, r')) (literal "alse" r)
        else if (c =? "n")%char then
          option_map (fun r' => (JNull, r')) (literal "ull" r)
        else
          match number (String c r) with
          | Some (lexeme, r') => Some (JNumber lexeme, r')
          | None => None
          end
    end.
Proof. reflexivity. Qed.

Lemma elements_S f s :
  elements (S f) s
  = match value f s with
    | None => None
    | Some (v, r) =>
        match skip_ws r with
        | String c r' =>
            if (c =? ",")%char then
              match elements f r' with
              | Some (vs, r'') => Some (v :: vs, r'')
              | None => None
              end
            else if (c =? "]")%char then Some ([v], r')
            else None
        | EmptyString => None
        end
    end.
Proof. reflexivity. Qed.

Lemma members_S f s :
  members (S f) s
  = match starts_with dquote (skip_ws s) with
    | None => None
    | Some r =>
        match string_body r with
        | None => None
        | Some (key, r1) =>
            match starts_with ":" (skip_ws r1) with
            | None => None
            | Some r2 =>
                match value f r2 with
                | None => None
                | Some (v, r3) =>
                    match skip_ws r3 with
                    | String c r4 =>
                        if (c =? ",")%char then
                          match members f r4 with
                          | Some (ms, r5) => Some ((key, v) :: ms, r5)
                          | None => None
                          end
                        else if (c =? "}")%char then Some ([(key, v)], r4)
                        else None
                    | EmptyString => None
                    end
                end
            end
        end
    end.
Proof. reflexivity. Qed.

Ltac next H := rewrite H; cbv beta iota.

(** Every amount of fuel settles the three parsers. *)
Lemma fuel_settles f : settled value f /\ settled elements f /\ settled members f.
Proof.
  induction f as [|f (IHv & IHe & IHm)].
  - repeat split; discriminate.
  - split; [|split]; intros s a rest H.
    + rewrite value_S in H.
      destruct (skip_ws s) as [|c r] eqn:Hs; [discriminate|].
      pose proof (skip_ws_length s) as Hl. rewrite Hs in Hl. simpl in Hl.
      destruct (c =? "[")%char eqn:C1.
      { pose proof (skip_ws_length r) as Hr.
        destruct (starts_with "]" (skip_ws r)) as [r'|] eqn:Hb.
        - apply starts_with_length in Hb as Hb'. injection H as <- <-.
          split; [lia|]. intros [|f'] Hf; [lia|].
          rewrite value_S. next Hs. next C1. now next Hb.
        - destruct (elements f r) as [[vs r']|] eqn:He; [|discriminate].
          injection H as <- <-. apply IHe in He as [Hlen Hfuel].
          split; [lia|]. intros [|f'] Hf; [lia|].
          rewrite value_S. next Hs. next C1. next Hb.
          rewrite Hfuel by lia. reflexivity. }
      destruct (c =? "{")%char eqn:C2.
      { pose proof (skip_ws_length r) as Hr.
        destruct (starts_with "}" (skip_ws r)) as [r'|] eqn:Hb.
        - apply starts_with_length in Hb as Hb'. injection H as <- <-.
          split; [lia|]. intros [|f'] Hf; [lia|].
          rewrite value_S. next Hs. next C1. next C2. now next Hb.
        - destruct (members f r) as [[ms r']|] eqn:He; [|discriminate].
          injection H as <- <-. apply IHm in He as [Hlen Hfuel].
          split; [lia|]. intros [|f'] Hf; [lia|].
          rewrite value_S. next Hs. next C1. next C2. next Hb.
          rewrite Hfuel by lia. reflexivity. }
      assert (Hrest : String.length rest < String.length s).
      { destruct (c =? dquote)%char.
        - destruct (string_body r) as [[body r']|] eqn:Hb; [|discriminate].
          injection H as <- <-.
          apply (string_body_length (String.length r)) in Hb; lia.
        - destruct (c =? "t")%char.
          { destruct (literal "rue" r) as [r'|] eqn:Hb; [|discriminate].
            injection H as <- <-. apply literal_length in Hb. lia. }
          destruct (c =? "f")%char.
          { destruct (literal "alse" r) as [r'|] eqn:Hb; [|discriminate].
            injection H as <- <-. apply literal_length in Hb. lia. }
          destruct (c =? "n")%char.
          { destruct (literal "ull" r) as [r'|] eqn:Hb; [|discriminate].
            injection H as <- <-. apply literal_length in Hb. lia. }
          destruct (number (String c r)) as [[l r']|] eqn:Hb; [|discriminate].
          injection H as <- <-. apply number_length in Hb. simpl in Hb. lia. }
      split; [assumption|]. intros [|f'] Hf; [lia|].
      rewrite value_S. next Hs. next C1. next C2. exact H.
    + rewrite elements_S in H.
      destruct (value f s) as [[v r]|] eqn:Hv; [|discriminate].
      apply IHv in Hv as [Hlen Hfuel].
      destruct (skip_ws r) as [|c r'] eqn:Hs; [discriminate|].
      pose proof (skip_ws_length r) as Hl. rewrite Hs in Hl. simpl in Hl.
      destruct (c =? ",")%char eqn:C1.
      { destruct (elements f r') as [[vs r'']|] eqn:He; [|discriminate].
        injection H as <- <-. apply IHe in He as [Hlen' Hfuel'].
        split; [lia|]. intros [|f'] Hf; [lia|].
        rewrite elements_S, Hfuel by lia. next Hs. next C1.
        rewrite Hfuel' by lia. reflexivity. }
      destruct (c =? "]")%char eqn:C2; [|discriminate].
      injection H as <- <-.
      split; [lia|]. intros [|f'] Hf; [lia|].
      rewrite elements_S, Hfuel by lia. next Hs. next C1. now next C2.
    + rewrite members_S in H.
      pose proof (skip_ws_length s) as Hl0.
      destruct (starts_with dquote (skip_ws s)) as [r|] eqn:Hq; [|discriminate].
      apply starts_with_length in Hq as Hq'.
      destruct (string_body r) as [[key r1]|] eqn:Hk; [|discriminate].
      apply (string_body_length (String.length r)) in Hk as Hk'; [|lia].
      pose proof (skip_ws_length r1) as Hl1.
      destruct (starts_with ":" (skip_ws r1)) as [r2|] eqn:Hc; [|discriminate].
      apply starts_with_length in Hc as Hc'.
      destruct (value f r2) as [[v r3]|] eqn:Hv; [|discriminate].
      apply IHv in Hv as [Hlen Hfuel].
      destruct (skip_ws r3) as [|c r4] eqn:Hs; [discriminate|].
      pose proof (skip_ws_length r3) as Hl. rewrite Hs in Hl. simpl in Hl.
      destruct (c =? ",")%char eqn:C1.
      { destruct (members f r4) as [[ms r5]|] eqn:He; [|discriminate].
        injection H as <- <-. apply IHm in He as [Hlen' Hfuel'].
        split; [lia|]. intros [|f'] Hf; [lia|].
        rewrite members_S. next Hq. next Hk. next Hc.
        rewrite Hfuel by lia. next Hs. next C1.
        rewrite Hfuel' by lia. reflexivity. }
      destruct (c =? "}")%char eqn:C2; [|discriminate].
      injection H as <- <-.
      split; [lia|]. intros [|f'] Hf; [lia|].
      rewrite members_S. next Hq. next Hk. next Hc.
      rewrite Hfuel by lia. next Hs. next C1. now next C2.
Qed.

(** The fuel [JSON.parse] starts with is enough: what any other amount of
    fuel parses, it parses, to the same value. *)
Lemma JSON_parse_fuel f text v :
  (exists rest, value f text = Some (v, rest) /\ skip_ws rest = EmptyString) ->
  JSON_parse text = inr v.
Proof.
  intros (rest & Hv & Hrest). unfold JSON_parse.
  destruct (fuel_settles f) as (Hs & _ & _).
  apply Hs in Hv as [Hlen Hfuel]. rewrite Hfuel by lia. now rewrite Hrest.
Qed.

(** A [SyntaxError] is never for lack of fuel: no amount of fuel
    parses the whole text. *)
Lemma JSON_parse_SyntaxError text e :
  JSON_parse text = inl e ->
  forall f v rest, value f text = Some (v, rest) -> skip_ws rest <> EmptyString.
Proof.
  intros He f v rest Hv Hrest.
  rewrite (JSON_parse_fuel f text v) in He; [discriminate|].
  now exists rest.
Qed.

End Fuel.

(* ================================================================== *)
(** * Reading a collection from its file *)
(* ================================================================== *)

(** [JSON.parse] throws nothing but a [SyntaxError]. *)
Lemma JSON_parse_error text e : Fs.JSON_parse text = inl e -> e = SyntaxError.
Proof.
  unfold Fs.JSON_parse.
  destruct (Fs.value _ text) as [[v rest]|]; [|congruence].
  destruct (Fs.skip_ws rest); congruence.
Qed.

(** The [catch] clause lets a [SyntaxError] through. *)
Lemma readJSON_of_text d name raw :
  d name = Fs.Holds raw ->
  Fs.readJSON d name
  = Fs.JSON_parse (if (raw =? "")%string then "[]" else raw).
Proof.
  intros H. unfold Fs.readJSON, Fs.readFile. rewrite H.
  destruct (Fs.JSON_parse _) as [e|v] eqn:Hp; [|reflexivity].
  now rewrite (JSON_parse_error _ _ Hp).
Qed.

(** C8, as the specification states it, fails on two kinds of files.  An
    empty file is not a JSON text, yet it reads as the empty collection;
    and a file that holds JSON that is not an array ([null], an object)
    is handed to the caller as it is, without an error. *)
Lemma readJSON_lets_non_arrays_through :
  Fs.JSON_parse "" = inl SyntaxError
  /\ Fs.readJSON (fun _ => Fs.Holds "") "blogs.json" = inr (Fs.JArray [])
  /\ Fs.readJSON (fun _ => Fs.Holds "null") "blogs.json" = inr Fs.JNull
  /\ Fs.readJSON (fun _ => Fs.Holds "{}") "blogs.json" = inr (Fs.JObject []).
Proof. repeat split; reflexivity. Qed.

(** C8, amended.  [readJSON(name)] returns the empty collection when the
    file is missing and when it is empty.  A read that fails with a code
    other than [ENOENT] is propagated with that code.  A file that is not
    empty is parsed: a text that is not JSON propagates the [SyntaxError]
    of [JSON.parse]; a JSON text is returned as parsed, array or not. *)
Theorem readJSON_spec :
  forall d name,
    match d name with
    | Fs.ReadFails c =>
        if (c =? "ENOENT")%string
        then Fs.readJSON d name = inr (Fs.JArray [])
        else Fs.readJSON d name = inl (SystemError c)
    | Fs.Holds raw =>
        if (raw =? "")%string
        then Fs.readJSON d name = inr (Fs.JArray [])
        else Fs.readJSON d name = Fs.JSON_parse raw
             /\ (forall e, Fs.JSON_parse raw = inl e -> e = SyntaxError)
    end.
Proof.
  intros d name. destruct (d name) as [c|raw] eqn:Hd.
  - unfold Fs.readJSON, Fs.readFile, Fs.catch. rewrite Hd. cbn [code Js.strict_eq].
    rewrite (String.eqb_sym "ENOENT" c). now destruct (c =? "ENOENT")%string.
  - rewrite (readJSON_of_text _ _ _ Hd).
    destruct (raw =? "")%string; [reflexivity|].
    split; [reflexivity | apply JSON_parse_error].
Qed.

Example readJSON_missing_file :
  Fs.readJSON (fun _ => Fs.ReadFails "ENOENT") "users.json" = inr (Fs.JArray []).
Proof. reflexivity. Qed.

Example readJSON_unreadable_file :
  Fs.readJSON (fun _ => Fs.ReadFails "EACCES") "users.json"
  = inl (SystemError "EACCES").
Proof. reflexivity. Qed.

Example readJSON_truncated_file :
  Fs.readJSON (fun _ => Fs.Holds "[{},") "users.json" = inl SyntaxError.
Proof. reflexivity. Qed.

Example readJSON_array :
  Fs.readJSON (fun _ => Fs.Holds "[ {}, [1, 2.5e3], true ]") "users.json"
  = inr (Fs.JArray [Fs.JObject []; Fs.JArray [Fs.JNumber "1"; Fs.JNumber "2.5e3"];
                    Fs.JBool true]).
Proof. reflexivity. Qed.

(* ================================================================== *)
(** * The guard, the footprint and the effects of the handlers *)
(* ================================================================== *)

(** X1.  A request to a route behind [requireAuth] that comes without a
    session is redirected to the login page, and nothing else happens: no
    file is read or written and the effect log is as it was. *)
Theorem guarded_routes_need_a_session :
  forall env req c,
    guarded req = true ->
    session_user c = None ->
    handle env req c = (redirect "/login", c).
Proof.
  intros env req c Hg Hs.
  destruct req; try discriminate Hg; run; now rewrite Hs.
Qed.

Lemma guarded_routes_need_a_session_witness :
  guarded (DELETE_posts "V1StGXR8_Z") = true
  /\ session_user (mkCtx one_post None []) = None
  /\ handle (example_env "id" 0) (DELETE_posts "V1StGXR8_Z") (mkCtx one_post None [])
     = (redirect "/login", mkCtx one_post None []).
Proof.
  split; [reflexivity|]. split; [reflexivity|].
  exact (guarded_routes_need_a_session (example_env "id" 0)
           (DELETE_posts "V1StGXR8_Z") (mkCtx one_post None [])
           eq_refl eq_refl).
Defined.

(** Tactic: split the run of a handler into its cases. *)
Ltac handler_cases c :=
  run;
  repeat match goal with
         | |- context [session_user c] =>
             let u := fresh "u" in destruct (session_user c) as [u|] eqn:?
         | |- context [isLoggedIn c] => unfold isLoggedIn
         | |- context [match find ?p ?l with _ => _ end] =>
             destruct (find p l) eqn:?
         | |- context [match Js.findIndex ?p ?l with _ => _ end] =>
             destruct (Js.findIndex p l) eqn:?
         | |- context [match Js.find_ref ?p ?l with _ => _ end] =>
             let r := fresh "r" in
             destruct (Js.find_ref p l) as [[? ?]|] eqn:?
         | |- context [match nth_error ?l ?i with _ => _ end] =>
             destruct (nth_error l i) eqn:?
         | |- context [match ?pw with Some _ => inr _ | None => inl _ end] =>
             destruct pw
         | |- context [if ?b then _ else _] => destruct b eqn:?
         end;
  cbn [disk session_user trace fst snd].

(** What one request leaves of the three files. *)
Lemma handle_footprint env req c :
  admins_file (disk (after (handle env req c))) = admins_file (disk c)
  /\ (writes_users req = false ->
      users_file (disk (after (handle env req c))) = users_file (disk c))
  /\ (writes_blogs req = false ->
      blogs_file (disk (after (handle env req c))) = blogs_file (disk c)).
Proof.
  destruct req; handler_cases c; repeat split; intros; cbn;
    solve [reflexivity | discriminate].
Qed.

(** X2.  Footprint of a request.  No handler writes [admins.json];
    [users.json] is written by [POST /signup] only; [blogs.json] is written
    only by the four routes that create, delete or react to a post.  A
    login, a logout and every [GET] leave the three files as they are. *)
Theorem handler_footprint :
  forall env req c,
    let d' := disk (after (handle env req c)) in
    admins_file d' = admins_file (disk c)
    /\ (writes_users req = false -> users_file d' = users_file (disk c))
    /\ (writes_blogs req = false -> blogs_file d' = blogs_file (disk c))
    /\ (writes_users req = false -> writes_blogs req = false -> d' = disk c).
Proof.
  intros env req c d'. subst d'.
  destruct (handle_footprint env req c) as (Ha & Hu & Hb).
  repeat split; try assumption.
  intros Hwu Hwb. specialize (Hu Hwu). specialize (Hb Hwb).
  destruct (disk (after (handle env req c))), (disk c). cbn in *. congruence.
Qed.

(** X3.  Whatever requests are served, by whatever clients, the admin
    list stays the one the file held at the start: admins are provisioned by
    hand, no route adds, edits or removes one. *)
Theorem admins_never_written :
  forall reqs d, admins_file (serve reqs d) = admins_file d.
Proof.
  induction reqs as [|[[env s] req] reqs IH]; intros d; simpl; [reflexivity|].
  rewrite IH. apply (handle_footprint env req (mkCtx d s [])).
Qed.

(** X4.  [req.session.user] is assigned by [POST /login] and destroyed by
    [POST /logout]; no other route changes it. *)
Theorem session_set_only_by_login_logout :
  forall env req c,
    sets_session req = false ->
    session_user (after (handle env req c)) = session_user c.
Proof.
  intros env req c Hs.
  destruct req; try discriminate Hs; handler_cases c;
    solve [reflexivity | congruence].
Qed.

Lemma session_set_only_by_login_logout_witness :
  sets_session (POST_like "V1StGXR8_Z") = false
  /\ session_user (after (handle (example_env "id" 0) (POST_like "V1StGXR8_Z")
                            (mkCtx one_post (Some bob) [])))
     = Some bob.
Proof.
  split; [reflexivity|].
  exact (session_set_only_by_login_logout (example_env "id" 0)
           (POST_like "V1StGXR8_Z") (mkCtx one_post (Some bob) []) eq_refl).
Defined.

Lemma no_effect_in_order : read_then_write [].
Proof. intros name []. Qed.

Lemma reads_in_order ev :
  (forall name, ~ In (WriteFile name) ev) -> read_then_write ev.
Proof. intros H name Hin. now destruct (H name). Qed.

Lemma write_last_in_order pre name :
  In (ReadFile name) pre ->
  (forall other, ~ In (WriteFile other) pre) ->
  read_then_write (pre ++ [WriteFile name]).
Proof.
  intros Hr Hw other Hin. apply in_app_iff in Hin as [Hin|[[= <-]|[]]].
  - now destruct (Hw other).
  - now exists pre.
Qed.

(** Tactic: the effects a handler added, read off the log it returns. *)
Ltac added_effects :=
  match goal with
  | |- exists ev, ?t = ?t ++ ev /\ _ =>
      exists []; split; [now rewrite app_nil_r | apply no_effect_in_order]
  | |- exists ev, (?t ++ ?a) ++ ?w = ?t ++ ev /\ _ =>
      exists (a ++ w); split; [now rewrite app_assoc|];
      first [ apply reads_in_order; cbn; intros ? ?; intuition discriminate
            | apply write_last_in_order;
              [cbn; auto | cbn; intros ? ?; intuition discriminate] ]
  | |- exists ev, ((?t ++ ?a) ++ ?b) ++ ?w = ?t ++ ev /\ _ =>
      exists ((a ++ b) ++ w); split; [now rewrite !app_assoc|];
      first [ apply reads_in_order; cbn; intros ? ?; intuition discriminate
            | apply write_last_in_order;
              [cbn; auto | cbn; intros ? ?; intuition discriminate] ]
  | |- exists ev, (((?t ++ ?a) ++ ?b) ++ ?h) ++ ?w = ?t ++ ev /\ _ =>
      exists (((a ++ b) ++ h) ++ w); split; [now rewrite !app_assoc|];
      first [ apply reads_in_order; cbn; intros ? ?; intuition discriminate
            | apply write_last_in_order;
              [cbn; auto | cbn; intros ? ?; intuition discriminate] ]
  | |- exists ev, ?t ++ ?a = ?t ++ ev /\ _ =>
      exists a; split; [reflexivity|];
      apply reads_in_order; cbn; intros ? ?; intuition discriminate
  end.

(** X5.  Every handler works by read-modify-write of a whole file: the
    effects it adds to the log hold at most one write, the write is the
    last effect of the request, and the file it writes was read earlier in
    the same request. *)
Theorem handlers_read_then_write :
  forall env req c,
    exists ev,
      trace (after (handle env req c)) = trace c ++ ev
      /\ read_then_write ev.
Proof.
  intros env req c.
  destruct req; handler_cases c; cbn [file_name]; added_effects.
Qed.

(* ================================================================== *)
(** * More on reactions *)
(* ================================================================== *)

Lemma find_ref_None_find {A} (pred : A -> bool) arr :
  find pred arr = None -> Js.find_ref pred arr = None.
Proof.
  rewrite <- find_ref_find. now destruct (Js.find_ref pred arr) as [[i x]|].
Qed.

Lemma like_missing id d requester t :
  find (has_id id) (contents blogs_json d) = None ->
  like id (mkCtx d (Some requester) t)
  = (NotFound, mkCtx d (Some requester) (t ++ [ReadFile "blogs.json"])).
Proof. intros Hf. apply find_ref_None_find in Hf. run. now rewrite Hf. Qed.

Lemma dislike_missing id d requester t :
  find (has_id id) (contents blogs_json d) = None ->
  dislike id (mkCtx d (Some requester) t)
  = (NotFound, mkCtx d (Some requester) (t ++ [ReadFile "blogs.json"])).
Proof. intros Hf. apply find_ref_None_find in Hf. run. now rewrite Hf. Qed.

(** The run of [dislike] on a store split around the first post with the
    id. *)
Lemma dislike_found id d requester t before post rest :
  contents blogs_json d = before ++ post :: rest ->
  forallb (fun y => negb (has_id id y)) before = true ->
  has_id id post = true ->
  dislike id (mkCtx d (Some requester) t)
  = (redirect "/",
     mkCtx (store blogs_json
              (before ++ toggle_dislike (Session.email requester) post :: rest) d)
       (Some requester)
       (t ++ [ReadFile "blogs.json"; WriteFile "blogs.json"])).
Proof.
  intros Hposts Hb Hid. run. rewrite Hposts.
  rewrite find_ref_middle by assumption. cbn.
  now rewrite assign_middle, <- app_assoc.
Qed.

Lemma has_id_toggle_dislike id u post :
  has_id id (toggle_dislike u post) = has_id id post.
Proof. unfold has_id. now rewrite toggle_dislike_id. Qed.

(** X6.  A [like] or a [dislike] of an id that no post has answers
    [NotFound]; the files stay as they are (the handler has read
    [blogs.json] and written nothing), and so does the session. *)
Theorem reaction_to_a_missing_post :
  forall id d requester t,
    (forall p, In p (contents blogs_json d) -> Post.id p <> id) ->
    let c := mkCtx d (Some requester) t in
    let c' := mkCtx d (Some requester) (t ++ [ReadFile "blogs.json"]) in
    like id c = (NotFound, c') /\ dislike id c = (NotFound, c').
Proof.
  intros id d requester t H c c'. apply find_has_id_None in H.
  split; [now apply like_missing | now apply dislike_missing].
Qed.

Lemma reaction_to_a_missing_post_witness :
  (forall p, In p (contents blogs_json one_post) -> Post.id p <> "nope")
  /\ like "nope" (mkCtx one_post (Some alice) [])
     = (NotFound, mkCtx one_post (Some alice) [ReadFile "blogs.json"]).
Proof.
  assert (H : forall p, In p (contents blogs_json one_post) -> Post.id p <> "nope")
    by (intros p [<-|[]]; cbn; discriminate).
  split; [exact H|].
  exact (proj1 (reaction_to_a_missing_post "nope" one_post alice [] H)).
Defined.

Section OwnReaction.

Variable u : string.

Lemma same_but_refl p : same_but_reaction_of u p p.
Proof. split; [reflexivity | tauto]. Qed.

Lemma same_but_trans p q r :
  same_but_reaction_of u p q -> same_but_reaction_of u q r ->
  same_but_reaction_of u p r.
Proof.
  intros [Hb1 H1] [Hb2 H2]. split; [congruence|].
  intros e He. destruct (H1 e He), (H2 e He). split; tauto.
Qed.

Lemma toggle_like_body p : body_of (toggle_like u p) = body_of p.
Proof.
  unfold toggle_like, body_of. simpl.
  now destruct (Js.includes u (Post.likes p)).
Qed.

Lemma toggle_dislike_body p : body_of (toggle_dislike u p) = body_of p.
Proof.
  unfold toggle_dislike, body_of. simpl.
  now destruct (Js.includes u (Post.dislikes p)).
Qed.

Lemma toggle_like_same_but p : same_but_reaction_of u p (toggle_like u p).
Proof.
  split; [apply toggle_like_body|]. intros e He. split.
  - now apply toggle_like_other.
  - rewrite toggle_like_dislikes, In_without. tauto.
Qed.

Lemma toggle_dislike_same_but p : same_but_reaction_of u p (toggle_dislike u p).
Proof.
  split; [apply toggle_dislike_body|]. intros e He. split.
  - rewrite toggle_dislike_likes, In_without. tauto.
  - now apply toggle_dislike_other.
Qed.

Lemma same_but_everywhere (l : list Post.t) :
  Forall2 (same_but_reaction_of u) l l.
Proof. induction l; constructor; auto using same_but_refl. Qed.

Lemma same_but_middle before p p' rest :
  same_but_reaction_of u p p' ->
  Forall2 (same_but_reaction_of u) (before ++ p :: rest) (before ++ p' :: rest).
Proof.
  intros H. apply Forall2_app; [apply same_but_everywhere|].
  constructor; [assumption | apply same_but_everywhere].
Qed.

End OwnReaction.

Lemma reactions_same_but id d requester t :
  let c := mkCtx d (Some requester) t in
  let u := Session.email requester in
  Forall2 (same_but_reaction_of u)
    (contents blogs_json d) (contents blogs_json (disk (after (like id c))))
  /\ Forall2 (same_but_reaction_of u)
       (contents blogs_json d) (contents blogs_json (disk (after (dislike id c)))).
Proof.
  intros c u. subst c u.
  destruct (find (has_id id) (contents blogs_json d)) as [post|] eqn:Hf.
  - destruct (find_split _ _ _ Hf) as (before & rest & Hposts & Hid & Hb & _).
    rewrite (like_found _ _ _ _ _ _ _ Hposts Hb Hid).
    rewrite (dislike_found _ _ _ _ _ _ _ Hposts Hb Hid).
    cbn. rewrite Hposts.
    split; apply same_but_middle;
      [apply toggle_like_same_but | apply toggle_dislike_same_but].
  - rewrite like_missing, dislike_missing by assumption. cbn.
    split; apply same_but_everywhere.
Qed.

(** X7.  A [like] or a [dislike] changes nothing but the requester's own
    reaction: afterwards the store holds the same posts in the same order,
    each with the body it had (id, title, content, author, creation
    instant), and every email but the requester's is in [likes] and in
    [dislikes] of each post exactly when it was before. *)
Theorem reaction_is_the_requesters_own :
  forall id d requester t,
    let c := mkCtx d (Some requester) t in
    let u := Session.email requester in
    Forall2 (same_but_reaction_of u)
      (contents blogs_json d) (contents blogs_json (disk (after (like id c))))
    /\ Forall2 (same_but_reaction_of u)
         (contents blogs_json d) (contents blogs_json (disk (after (dislike id c)))).
Proof. exact reactions_same_but. Qed.

(** Two reactions in a row by the same requester, on a store split around
    the first post with the id: the post is toggled twice where it stands. *)
Ltac two_reactions first_found second_found Hposts Hb Hid :=
  rewrite (first_found _ _ _ _ _ _ _ Hposts Hb Hid);
  unfold after at 2; cbn [snd];
  erewrite second_found;
  [reflexivity | reflexivity | assumption
  | rewrite ?has_id_toggle_like, ?has_id_toggle_dislike; assumption].

Lemma disliked_twice_run id d requester t before post rest :
  contents blogs_json d = before ++ post :: rest ->
  forallb (fun y => negb (has_id id y)) before = true ->
  has_id id post = true ->
  let u := Session.email requester in
  contents blogs_json (disk (disliked_twice id (mkCtx d (Some requester) t)))
  = before ++ toggle_dislike u (toggle_dislike u post) :: rest.
Proof.
  intros Hposts Hb Hid u. unfold disliked_twice.
  now two_reactions dislike_found dislike_found Hposts Hb Hid.
Qed.

Lemma liked_then_disliked_run id d requester t before post rest :
  contents blogs_json d = before ++ post :: rest ->
  forallb (fun y => negb (has_id id y)) before = true ->
  has_id id post = true ->
  let u := Session.email requester in
  contents blogs_json (disk (liked_then_disliked id (mkCtx d (Some requester) t)))
  = before ++ toggle_dislike u (toggle_like u post) :: rest.
Proof.
  intros Hposts Hb Hid u. unfold liked_then_disliked.
  now two_reactions like_found dislike_found Hposts Hb Hid.
Qed.

Lemma disliked_then_liked_run id d requester t before post rest :
  contents blogs_json d = before ++ post :: rest ->
  forallb (fun y => negb (has_id id y)) before = true ->
  has_id id post = true ->
  let u := Session.email requester in
  contents blogs_json (disk (disliked_then_liked id (mkCtx d (Some requester) t)))
  = before ++ toggle_like u (toggle_dislike u post) :: rest.
Proof.
  intros Hposts Hb Hid u. unfold disliked_then_liked.
  now two_reactions dislike_found like_found Hposts Hb Hid.
Qed.

Lemma toggle_dislike_twice_In u p :
  In u (Post.dislikes (toggle_dislike u (toggle_dislike u p)))
  <-> In u (Post.dislikes p).
Proof. now rewrite <- !includes_In, !toggle_dislike_self, negb_involutive. Qed.

(** X8.  Two [dislike] requests in a row by the same requester on an
    existing post leave the requester's membership in [dislikes] as it was
    before the first, and the requester out of [likes] either way; the
    post stays where it is in the store, and nothing else of it moves. *)
Theorem dislike_twice_restores :
  forall id d requester t post,
    find (has_id id) (contents blogs_json d) = Some post ->
    let u := Session.email requester in
    let posts2 :=
      contents blogs_json (disk (disliked_twice id (mkCtx d (Some requester) t))) in
    exists post2,
      find (has_id id) posts2 = Some post2
      /\ (In u (Post.dislikes post2) <-> In u (Post.dislikes post))
      /\ ~ In u (Post.likes post2)
      /\ same_but_reaction_of u post post2
      /\ exists before rest,
           contents blogs_json d = before ++ post :: rest
           /\ posts2 = before ++ post2 :: rest.
Proof.
  intros id d requester t post Hf u posts2. subst posts2.
  destruct (find_split _ _ _ Hf) as (before & rest & Hposts & Hid & Hb & _).
  rewrite (disliked_twice_run _ _ _ _ _ _ _ Hposts Hb Hid). fold u.
  exists (toggle_dislike u (toggle_dislike u post)).
  split; [|split; [|split; [|split]]].
  - apply find_middle; [assumption|]. now rewrite !has_id_toggle_dislike.
  - apply toggle_dislike_twice_In.
  - apply toggle_dislike_requester.
  - eapply same_but_trans; apply toggle_dislike_same_but.
  - now exists before, rest.
Qed.

Lemma dislike_twice_restores_witness :
  find (has_id "V1StGXR8_Z") (contents blogs_json one_post) = Some bobs_post
  /\ exists post2,
       find (has_id "V1StGXR8_Z")
         (contents blogs_json
            (disk (disliked_twice "V1StGXR8_Z" (mkCtx one_post (Some alice) []))))
       = Some post2
       /\ (In "a@x.com" (Post.dislikes post2) <-> In "a@x.com" (Post.dislikes bobs_post))
       /\ ~ In "a@x.com" (Post.likes post2).
Proof.
  split; [reflexivity|].
  destruct (dislike_twice_restores "V1StGXR8_Z" one_post alice [] bobs_post eq_refl)
    as (post2 & Hfind & Hdislikes & Hlikes & _).
  exists post2. split; [exact Hfind|]. split; [exact Hdislikes | exact Hlikes].
Defined.

(** X9.  Switching a reaction.  Whatever the requester's reaction to an
    existing post was, after a [like] followed by a [dislike] the
    requester is in [dislikes] and not in [likes]; after a [dislike]
    followed by a [like] the requester is in [likes] and not in
    [dislikes].  Nothing else of the post moves. *)
Theorem reaction_switches :
  forall id d requester t post,
    find (has_id id) (contents blogs_json d) = Some post ->
    let u := Session.email requester in
    let c := mkCtx d (Some requester) t in
    (exists post2,
        find (has_id id) (contents blogs_json (disk (liked_then_disliked id c)))
        = Some post2
        /\ In u (Post.dislikes post2) /\ ~ In u (Post.likes post2)
        /\ same_but_reaction_of u post post2)
    /\ (exists post2,
           find (has_id id) (contents blogs_json (disk (disliked_then_liked id c)))
           = Some post2
           /\ In u (Post.likes post2) /\ ~ In u (Post.dislikes post2)
           /\ same_but_reaction_of u post post2).
Proof.
  intros id d requester t post Hf u c. subst c.
  destruct (find_split _ _ _ Hf) as (before & rest & Hposts & Hid & Hb & _).
  rewrite (liked_then_disliked_run _ _ _ _ _ _ _ Hposts Hb Hid).
  rewrite (disliked_then_liked_run _ _ _ _ _ _ _ Hposts Hb Hid). fold u.
  split.
  - exists (toggle_dislike u (toggle_like u post)).
    split; [|split; [|split]].
    + apply find_middle; [assumption|].
      now rewrite has_id_toggle_dislike, has_id_toggle_like.
    + apply includes_In. rewrite toggle_dislike_self.
      apply negb_true_iff, includes_false, toggle_like_requester.
    + apply toggle_dislike_requester.
    + eapply same_but_trans;
        [apply toggle_like_same_but | apply toggle_dislike_same_but].
  - exists (toggle_like u (toggle_dislike u post)).
    split; [|split; [|split]].
    + apply find_middle; [assumption|].
      now rewrite has_id_toggle_like, has_id_toggle_dislike.
    + apply includes_In. rewrite toggle_like_self.
      apply negb_true_iff, includes_false, toggle_dislike_requester.
    + apply toggle_like_requester.
    + eapply same_but_trans;
        [apply toggle_dislike_same_but | apply toggle_like_same_but].
Qed.

Lemma reaction_switches_witness :
  find (has_id "V1StGXR8_Z") (contents blogs_json one_post) = Some bobs_post
  /\ exists post2,
       find (has_id "V1StGXR8_Z")
         (contents blogs_json
            (disk (liked_then_disliked "V1StGXR8_Z" (mkCtx one_post (Some alice) []))))
       = Some post2
       /\ In "a@x.com" (Post.dislikes post2) /\ ~ In "a@x.com" (Post.likes post2).
Proof.
  split; [reflexivity|].
  destruct (proj1 (reaction_switches "V1StGXR8_Z" one_post alice [] bobs_post eq_refl))
    as (post2 & Hfind & Hd & Hl & _).
  exists post2. split; [exact Hfind|]. split; [exact Hd | exact Hl].
Defined.

(* ================================================================== *)
(** * Creating a post *)
(* ================================================================== *)

Section Trim.

Lemma append_nil_r (s : string) : (s ++ "")%string = s.
Proof. induction s as [|c s IH]; simpl; [reflexivity | now rewrite IH]. Qed.

Lemma append_assoc (a b c : string) :
  ((a ++ b) ++ c)%string = (a ++ b ++ c)%string.
Proof. induction a as [|x a IH]; simpl; [reflexivity | now rewrite IH]. Qed.

Lemma reverse_append (a b : string) :
  Js.reverse (a ++ b) = (Js.reverse b ++ Js.reverse a)%string.
Proof.
  induction a as [|x a IH]; simpl.
  - now rewrite append_nil_r.
  - now rewrite IH, append_assoc.
Qed.

Lemma reverse_involutive (s : string) : Js.reverse (Js.reverse s) = s.
Proof.
  induction s as [|c s IH]; simpl; [reflexivity|].
  rewrite reverse_append, IH. reflexivity.
Qed.

Section Drop.

Variables (sp2 : ascii -> ascii -> bool) (sp3 : ascii -> ascii -> ascii -> bool).

Lemma drop_spaces_eq s :
  Js.drop_spaces sp2 sp3 s
  = match s with
    | EmptyString => s
    | String c1 r1 =>
        if Js.is_space c1 then Js.drop_spaces sp2 sp3 r1
        else
          match r1 with
          | EmptyString => s
          | String c2 r2 =>
              if sp2 c1 c2 then Js.drop_spaces sp2 sp3 r2
              else
                match r2 with
                | EmptyString => s
                | String c3 r3 =>
                    if sp3 c1 c2 c3 then Js.drop_spaces sp2 sp3 r3 else s
                end
          end
    end.
Proof. destruct s; reflexivity. Qed.

Lemma drop_spaces_head n :
  forall s, String.length s <= n ->
            Js.space_at_head sp2 sp3 (Js.drop_spaces sp2 sp3 s) = false.
Proof.
  induction n as [|n IH]; intros [|c1 [|c2 [|c3 r3]]] Hn; simpl in Hn;
    try lia; try reflexivity.
  - simpl. destruct (Js.is_space c1) eqn:H1; simpl; [reflexivity | assumption].
  - rewrite drop_spaces_eq. destruct (Js.is_space c1) eqn:H1.
    + apply IH. simpl. lia.
    + destruct (sp2 c1 c2) eqn:H2; [reflexivity|].
      simpl. now rewrite H1, H2.
  - rewrite drop_spaces_eq. destruct (Js.is_space c1) eqn:H1.
    + apply IH. simpl. lia.
    + destruct (sp2 c1 c2) eqn:H2.
      * apply IH. simpl. lia.
      * destruct (sp3 c1 c2 c3) eqn:H3.
        -- apply IH. simpl in *. lia.
        -- simpl. now rewrite H1, H2, H3.
Qed.

Lemma drop_spaces_id s :
  Js.space_at_head sp2 sp3 s = false -> Js.drop_spaces sp2 sp3 s = s.
Proof.
  destruct s as [|c1 [|c2 [|c3 r3]]]; simpl; try reflexivity.
  - now intros ->.
  - rewrite orb_false_iff. now intros [-> ->].
  - rewrite !orb_false_iff. now intros [[-> ->] ->].
Qed.

(** What [drop_spaces] returns is the end of its argument. *)
Lemma drop_spaces_suffix n :
  forall s, String.length s <= n ->
            exists w, s = (w ++ Js.drop_spaces sp2 sp3 s)%string.
Proof.
  induction n as [|n IH]; intros [|c1 r1] Hn; simpl in Hn; try lia;
    try (now exists EmptyString).
  rewrite drop_spaces_eq. destruct (Js.is_space c1).
  { destruct (IH r1) as (w & Hw); [lia|].
    exists (String c1 w). simpl. now rewrite <- Hw. }
  destruct r1 as [|c2 r2]; [now exists EmptyString|].
  destruct (sp2 c1 c2).
  { destruct (IH r2) as (w & Hw); [simpl in Hn; lia|].
    exists (String c1 (String c2 w)). simpl. now rewrite <- Hw. }
  destruct r2 as [|c3 r3]; [now exists EmptyString|].
  destruct (sp3 c1 c2 c3); [|now exists EmptyString].
  destruct (IH r3) as (w & Hw); [simpl in Hn; lia|].
  exists (String c1 (String c2 (String c3 w))). simpl. now rewrite <- Hw.
Qed.

(** White space at the head of a string is at the head of any string it
    starts. *)
Lemma space_at_head_append p q :
  Js.space_at_head sp2 sp3 p = true ->
  Js.space_at_head sp2 sp3 (p ++ q) = true.
Proof.
  destruct p as [|c1 [|c2 [|c3 r3]]]; simpl; try discriminate.
  - intros ->. now destruct q as [|c2 [|c3 q]].
  - intros H. destruct q as [|c3 q]; simpl; [assumption|].
    rewrite H. reflexivity.
  - trivial.
Qed.

End Drop.

Lemma trimStart_starts s : starts_with_space (Js.trimStart s) = false.
Proof. now apply (drop_spaces_head _ _ (String.length s)). Qed.

Lemma trimEnd_ends s : ends_with_space (Js.trimEnd s) = false.
Proof.
  unfold ends_with_space, Js.trimEnd. rewrite reverse_involutive.
  now apply (drop_spaces_head _ _ (String.length (Js.reverse s))).
Qed.

(** [trimEnd] returns the start of its argument. *)
Lemma trimEnd_prefix s : exists w, s = (Js.trimEnd s ++ w)%string.
Proof.
  destruct (drop_spaces_suffix Js.is_space2_back Js.is_space3_back
              (String.length (Js.reverse s)) (Js.reverse s) (le_n _))
    as (w & Hw).
  exists (Js.reverse w). unfold Js.trimEnd.
  rewrite <- reverse_append, <- Hw. symmetry. apply reverse_involutive.
Qed.

Lemma trimEnd_starts s :
  starts_with_space s = false -> starts_with_space (Js.trimEnd s) = false.
Proof.
  intros Hs. destruct (starts_with_space (Js.trimEnd s)) eqn:He; [|reflexivity].
  destruct (trimEnd_prefix s) as (w & Hw).
  apply (space_at_head_append _ _ _ w) in He. unfold starts_with_space in Hs.
  rewrite <- Hw in He. congruence.
Qed.

Lemma trim_trimmed s : trimmed (Js.trim s).
Proof.
  unfold Js.trim. split;
    [apply trimEnd_starts, trimStart_starts | apply trimEnd_ends].
Qed.

Lemma trimStart_id s : starts_with_space s = false -> Js.trimStart s = s.
Proof. apply drop_spaces_id. Qed.

Lemma trimEnd_id s : ends_with_space s = false -> Js.trimEnd s = s.
Proof.
  intros H. unfold Js.trimEnd. rewrite drop_spaces_id by exact H.
  apply reverse_involutive.
Qed.

(** [trim] leaves a string without white space at its ends as it is. *)
Lemma trim_id s : trimmed s -> Js.trim s = s.
Proof.
  intros [Hs He]. unfold Js.trim. rewrite trimStart_id by assumption.
  now apply trimEnd_id.
Qed.

(** [v?.trim() || d]: the trimmed text, or [d] when there is none. *)
Lemma trim_or_else (v : Js.field) (d : string) :
  trimmed d ->
  trimmed (Js.or_else (Js.opt_trim v) d)
  /\ (d <> EmptyString -> Js.or_else (Js.opt_trim v) d <> EmptyString)
  /\ (forall s, v = Some s -> trimmed s -> s <> EmptyString ->
                Js.or_else (Js.opt_trim v) d = s)
  /\ (forall s, v = Some s -> Js.trim s = EmptyString ->
                Js.or_else (Js.opt_trim v) d = d)
  /\ (v = None -> Js.or_else (Js.opt_trim v) d = d).
Proof.
  intros Hd. destruct v as [s|]; simpl.
  - destruct (Js.trim s =? "")%string eqn:Hs.
    + apply String.eqb_eq in Hs.
      split; [exact Hd|]. split; [auto|]. split; [|split].
      * intros s' [= <-] Ht Hne. rewrite (trim_id s Ht) in Hs. contradiction.
      * reflexivity.
      * discriminate.
    + apply String.eqb_neq in Hs.
      split; [apply trim_trimmed|]. split; [auto|]. split; [|split].
      * intros s' [= <-] Ht _. now apply trim_id.
      * intros s' [= <-] Ht. contradiction.
      * discriminate.
  - split; [exact Hd|]. split; [auto|]. split; [|split].
    + discriminate.
    + discriminate.
    + reflexivity.
Qed.

End Trim.

(** X10.  [createPost] by a logged-in user, with a title and a content
    submitted as strings (or left out): [blogs.json] is written and
    afterwards holds the posts it held, as they were, followed by exactly
    one new post; the other two files are not touched.  The new post has
    the id [nanoid] returned, the creation instant of the clock, the email
    and name of the session as its author, and no reaction.  Its title is
    never empty and neither title nor content starts or ends with white
    space: the submitted text is trimmed, a title that is missing or blank
    becomes ["(untitled)"], a content that is missing or blank becomes
    empty, and a text with nothing to trim is stored as submitted. *)
Theorem createPost_appends :
  forall env title content d u t,
    let r := createPost env title content (mkCtx d (Some u) t) in
    response r = redirect "/"
    /\ exists post,
         blogs_file (disk (after r)) = Some (contents blogs_json d ++ [post])
         /\ contents blogs_json (disk (after r)) = contents blogs_json d ++ [post]
         /\ admins_file (disk (after r)) = admins_file d
         /\ users_file (disk (after r)) = users_file d
         /\ trace (after r) = t ++ [ReadFile "blogs.json"; WriteFile "blogs.json"]
         /\ (Post.id post, Post.createdAt post) = (nanoid env, now env)
         /\ (Post.authorEmail post, Post.authorName post)
            = (Session.email u, Session.name u)
         /\ (Post.likes post, Post.dislikes post) = ([], [])
         /\ Post.title post <> EmptyString
         /\ trimmed (Post.title post) /\ trimmed (Post.content post)
         /\ (forall s, title = Some s -> Post.title post = Js.trim s
                       \/ (Js.trim s = EmptyString /\ Post.title post = "(untitled)"))
         /\ (forall s, content = Some s -> Post.content post = Js.trim s)
         /\ (forall s, title = Some s -> trimmed s -> s <> EmptyString ->
                       Post.title post = s)
         /\ (forall s, content = Some s -> trimmed s -> s <> EmptyString ->
                       Post.content post = s)
         /\ (title = None \/ (exists s, title = Some s /\ Js.trim s = EmptyString) ->
             Post.title post = "(untitled)")
         /\ (content = None -> Post.content post = EmptyString).
Proof.
  intros env title content d u t r. subst r. run.
  split; [reflexivity|]. eexists. split; [reflexivity|]. cbn.
  assert (Hun : trimmed "(untitled)") by (split; reflexivity).
  assert (Hem : trimmed EmptyString) by (split; reflexivity).
  destruct (trim_or_else title "(untitled)" Hun) as (Ht1 & Ht2 & Ht3 & Ht4 & Ht5).
  destruct (trim_or_else content EmptyString Hem) as (Hc1 & _ & Hc3 & _ & Hc5).
  split; [reflexivity|]. split; [reflexivity|]. split; [reflexivity|].
  split; [now rewrite <- app_assoc|].
  split; [reflexivity|]. split; [reflexivity|]. split; [reflexivity|].
  split; [apply Ht2; discriminate|].
  split; [apply Ht1|]. split; [apply Hc1|].
  split; [|split; [|split; [exact Ht3|split; [exact Hc3|split; [|exact Hc5]]]]].
  - intros s ->. cbn. destruct (Js.trim s =? "")%string eqn:Hs.
    + right. split; [now apply String.eqb_eq | reflexivity].
    + now left.
  - intros s ->. cbn. destruct (Js.trim s =? "")%string eqn:Hs; [|reflexivity].
    apply String.eqb_eq in Hs. now rewrite Hs.
  - intros [Hn | (s & Hs & Hb)]; [now apply Ht5 | now apply (Ht4 s)].
Qed.

(** Alice posts a title with blanks around it, among them a no-break
    space (the bytes 194 and 160), and a blank content. *)
Lemma createPost_appends_witness :
  let nbsp := String (ascii_of_nat 194) (String (ascii_of_nat 160) EmptyString) in
  let r := createPost (example_env "Uakgb_J5m9" 1700000000001)
             (Some (" " ++ nbsp ++ "Second" ++ nbsp ++ " ")%string) (Some "  ")
             (mkCtx one_post (Some alice) []) in
  response r = redirect "/"
  /\ blogs_file (disk (after r))
     = Some [bobs_post;
             Post.mk "Uakgb_J5m9" "Second" "" "a@x.com" "Alice" 1700000000001 [] []].
Proof.
  intros nbsp r.
  destruct (createPost_appends (example_env "Uakgb_J5m9" 1700000000001)
              (Some (" " ++ nbsp ++ "Second" ++ nbsp ++ " ")%string) (Some "  ")
              one_post alice [])
    as (Hresp & post & Hfile & _ & _ & _ & _ & Hid & Hauthor & Hreact & _ & _ & _
        & Htitle & Hcontent & _).
  split; [exact Hresp|]. fold r in Hfile. rewrite Hfile. cbn.
  specialize (Hcontent _ eq_refl).
  destruct (Htitle _ eq_refl) as [Ht | [Ht _]]; [|discriminate Ht].
  destruct post. cbn in *.
  injection Hid as -> ->. injection Hauthor as -> ->. injection Hreact as -> ->.
  now subst.
Defined.

Lemma fresh_id_forallb id (posts : list Post.t) :
  ~ In id (map Post.id posts) ->
  forallb (fun y => negb (has_id id y)) posts = true.
Proof.
  intros H. apply forallb_forall. intros p Hp. apply negb_true_iff.
  unfold has_id. apply String.eqb_neq. intros Hid. apply H.
  apply in_map_iff. now exists p.
Qed.

(** X11.  Creating a post and deleting it again.  When the id [nanoid]
    returns is not the id of a post of the store, the author of the new
    post can delete it right away, and the store then holds the posts it
    held before the two requests, in their order. *)
Theorem create_then_delete :
  forall env title content d u t,
    ~ In (nanoid env) (post_ids d) ->
    let c1 := after (createPost env title content (mkCtx d (Some u) t)) in
    let r := deletePost (nanoid env) c1 in
    response r = redirect "/"
    /\ contents blogs_json (disk (after r)) = contents blogs_json d
    /\ List.length (contents blogs_json (disk c1))
       = S (List.length (contents blogs_json d)).
Proof.
  intros env title content d u t Hfresh c1 r. subst c1 r.
  destruct (createPost_run env title content d u t)
    as (post & -> & Hid & _ & Hauthor & _).
  unfold after, response. cbn [snd].
  assert (Hposts : contents blogs_json
                     (store blogs_json (contents blogs_json d ++ [post]) d)
                   = contents blogs_json d ++ post :: []) by reflexivity.
  rewrite (deletePost_found (nanoid env) _ u _ _ post [] Hposts).
  - rewrite Hauthor, String.eqb_refl, orb_true_r. cbn.
    rewrite app_nil_r, length_app. cbn. repeat split. lia.
  - now apply fresh_id_forallb.
  - unfold has_id. rewrite Hid. apply String.eqb_refl.
Qed.

Lemma create_then_delete_witness :
  let env := example_env "Uakgb_J5m9" 1700000000001 in
  ~ In (nanoid env) (post_ids one_post)
  /\ contents blogs_json
       (disk (after (deletePost "Uakgb_J5m9"
                       (after (createPost env (Some "Second") (Some "post")
                                 (mkCtx one_post (Some alice) []))))))
     = [bobs_post].
Proof.
  intros env.
  assert (H : ~ In (nanoid env) (post_ids one_post))
    by (cbn; intros [H|[]]; discriminate).
  split; [exact H|].
  exact (proj1 (proj2 (create_then_delete env (Some "Second") (Some "post")
                         one_post alice [] H))).
Defined.

Section ListingFacts.

Lemma insert_first (x y : Post.t) l :
  (newest_first x y <= 0)%Z ->
  Js.insert newest_first x (y :: l) = x :: y :: l.
Proof.
  intros H. simpl. destruct (Z.leb_spec (newest_first x y) 0); [reflexivity | lia].
Qed.

Lemma insert_later (x y : Post.t) l :
  (0 < newest_first x y)%Z ->
  Js.insert newest_first x (y :: l) = y :: Js.insert newest_first x l.
Proof.
  intros H. simpl. destruct (Z.leb_spec (newest_first x y) 0); [lia | reflexivity].
Qed.

(** A post newer than all the others goes to the head of the listing. *)
Lemma sort_newest_last l p :
  (forall q, In q l -> (Post.createdAt q < Post.createdAt p)%Z) ->
  Js.sort newest_first (l ++ [p]) = p :: Js.sort newest_first l.
Proof.
  induction l as [|x l IH]; intros H; [reflexivity|].
  cbn [app Js.sort]. rewrite IH by (intros q Hq; apply H; now right).
  apply insert_later. unfold newest_first.
  specialize (H x (or_introl eq_refl)). lia.
Qed.

(** Sorting and then leaving posts out is leaving them out and then
    sorting: a listing loses the posts that were deleted and nothing else,
    and keeps its order. *)
Lemma insert_filter (f : Post.t -> bool) x l :
  StronglySorted not_older l ->
  filter f (Js.insert newest_first x l)
  = if f x then Js.insert newest_first x (filter f l) else filter f l.
Proof.
  induction 1 as [|y l Hl IH Hy].
  - simpl. now destruct (f x).
  - destruct (Z.leb_spec (newest_first x y) 0) as [Hle|Hgt].
    + rewrite insert_first by assumption.
      change (filter f (x :: y :: l))
        with (if f x then x :: filter f (y :: l) else filter f (y :: l)).
      destruct (f x); [|reflexivity].
      remember (filter f (y :: l)) as kept eqn:Hk.
      destruct kept as [|z kept]; [reflexivity|].
      symmetry. apply insert_first.
      assert (Hin : In z (y :: l)).
      { apply (filter_In f). rewrite <- Hk. now left. }
      destruct Hin as [<-|Hin]; [assumption|].
      rewrite Forall_forall in Hy. specialize (Hy z Hin).
      unfold newest_first, not_older in *. lia.
    + rewrite insert_later by assumption.
      change (filter f (y :: Js.insert newest_first x l))
        with (if f y then y :: filter f (Js.insert newest_first x l)
              else filter f (Js.insert newest_first x l)).
      change (filter f (y :: l))
        with (if f y then y :: filter f l else filter f l).
      rewrite IH. destruct (f y), (f x); try reflexivity.
      now rewrite insert_later.
Qed.

Lemma sort_filter (f : Post.t -> bool) l :
  filter f (Js.sort newest_first l) = Js.sort newest_first (filter f l).
Proof.
  induction l as [|x l IH]; [reflexivity|].
  cbn [Js.sort filter]. rewrite insert_filter by apply sort_sorted.
  rewrite IH. now destruct (f x).
Qed.

End ListingFacts.

(** X12.  A post created at an instant later than the creation instants
    of all the posts of the store heads the next listing, and the rest of
    the listing is the listing as it was. *)
Theorem new_post_is_listed_first :
  forall env title content d u t s,
    (forall q, In q (contents blogs_json d) -> (Post.createdAt q < now env)%Z) ->
    let c1 := after (createPost env title content (mkCtx d (Some u) t)) in
    exists post,
      Post.id post = nanoid env
      /\ response (listPosts (as_client s c1))
         = render_index (post :: Js.sort newest_first (contents blogs_json d))
      /\ response (listPosts (mkCtx d s t))
         = render_index (Js.sort newest_first (contents blogs_json d)).
Proof.
  intros env title content d u t s Hnew c1. subst c1.
  destruct (createPost_run env title content d u t)
    as (post & -> & Hid & Hat & _).
  exists post. split; [assumption|]. rewrite !listPosts_run. cbn.
  split; [|reflexivity]. f_equal. apply sort_newest_last.
  intros q Hq. rewrite Hat. now apply Hnew.
Qed.

Lemma new_post_is_listed_first_witness :
  let env := example_env "Uakgb_J5m9" 1700000000001 in
  (forall q, In q (contents blogs_json one_post) -> (Post.createdAt q < now env)%Z)
  /\ exists post,
       Post.id post = "Uakgb_J5m9"
       /\ response (listPosts
                      (as_client None
                         (after (createPost env (Some "Second") (Some "post")
                                   (mkCtx one_post (Some alice) [])))))
          = render_index [post; bobs_post].
Proof.
  intros env.
  assert (H : forall q, In q (contents blogs_json one_post) ->
                        (Post.createdAt q < now env)%Z)
    by (intros q [<-|[]]; cbn; lia).
  split; [exact H|].
  destruct (new_post_is_listed_first env (Some "Second") (Some "post")
              one_post alice [] None H) as (post & Hid & Hlist & _).
  exists post. split; [exact Hid | exact Hlist].
Defined.

Lemma filter_all {A} (f : A -> bool) l : forallb f l = true -> filter f l = l.
Proof.
  induction l as [|x l IH]; simpl; [reflexivity|].
  rewrite andb_true_iff. intros [-> H]. now rewrite IH.
Qed.

(** With ids that are unique, the posts that do not have the id are all
    the posts but the one that has it. *)
Lemma filter_other_ids id before post rest :
  NoDup (map Post.id (before ++ post :: rest)) ->
  has_id id post = true ->
  filter (fun p => negb (has_id id p)) (before ++ post :: rest) = before ++ rest.
Proof.
  intros Hnd Hid. apply String.eqb_eq in Hid as Hid'.
  rewrite map_app in Hnd. cbn [map] in Hnd.
  apply NoDup_remove_2 in Hnd. rewrite in_app_iff in Hnd.
  rewrite filter_app. cbn [filter]. rewrite Hid. cbn [negb].
  rewrite !filter_all; [reflexivity| |];
    apply fresh_id_forallb; rewrite <- Hid'; tauto.
Qed.

Lemma may_delete requester post d t :
  Session.role requester = admin
  \/ Post.authorEmail post = Session.email requester ->
  isAdmin (mkCtx d (Some requester) t)
  || (Post.authorEmail post =? Session.email requester)%string = true.
Proof.
  intros [H|H]; unfold isAdmin; cbn.
  - now rewrite H.
  - rewrite H, String.eqb_refl. apply orb_true_r.
Qed.

(** X13.  A deleted post leaves the listing, and only it does.  When the
    ids of the posts are unique and an admin or the author deletes the
    post with a given id, the next listing is the listing as it was
    without that post: the other posts are all there, in the same order,
    and none of them has the id. *)
Theorem deleted_post_leaves_the_listing :
  forall id d requester t post s,
    NoDup (post_ids d) ->
    find (has_id id) (contents blogs_json d) = Some post ->
    Session.role requester = admin
    \/ Post.authorEmail post = Session.email requester ->
    let c' := after (deletePost id (mkCtx d (Some requester) t)) in
    exists listing,
      response (listPosts (mkCtx d s t)) = render_index listing
      /\ response (listPosts (as_client s c'))
         = render_index (filter (fun p => negb (has_id id p)) listing)
      /\ In post listing
      /\ forall p, In p (filter (fun p => negb (has_id id p)) listing) ->
                   Post.id p <> id /\ In p (contents blogs_json d).
Proof.
  intros id d requester t post s Hnd Hf Hmay c'. subst c'.
  destruct (find_split _ _ _ Hf) as (before & rest & Hposts & Hid & Hb & _).
  rewrite (deletePost_found _ _ _ _ _ _ _ Hposts Hb Hid).
  rewrite (may_delete _ _ _ _ Hmay).
  exists (Js.sort newest_first (contents blogs_json d)).
  rewrite !listPosts_run. cbn.
  split; [reflexivity|]. split; [|split].
  - f_equal. rewrite sort_filter, Hposts. f_equal. symmetry.
    apply filter_other_ids; [|assumption].
    unfold post_ids in Hnd. now rewrite Hposts in Hnd.
  - apply (Permutation_in _ (Permutation_sym (sort_perm _))).
    rewrite Hposts. apply in_elt.
  - intros p Hp. apply filter_In in Hp as [Hp Hne].
    apply (Permutation_in _ (sort_perm _)) in Hp. split; [|assumption].
    apply negb_true_iff in Hne. unfold has_id in Hne.
    now apply String.eqb_neq in Hne.
Qed.

Lemma deleted_post_leaves_the_listing_witness :
  NoDup (post_ids one_post)
  /\ find (has_id "V1StGXR8_Z") (contents blogs_json one_post) = Some bobs_post
  /\ (Session.role bob = admin \/ Post.authorEmail bobs_post = Session.email bob)
  /\ response (listPosts
                 (as_client None
                    (after (deletePost "V1StGXR8_Z" (mkCtx one_post (Some bob) [])))))
     = render_index [].
Proof.
  assert (Hnd : NoDup (post_ids one_post))
    by (cbn; repeat constructor; intros []).
  assert (Hmay : Session.role bob = admin
                 \/ Post.authorEmail bobs_post = Session.email bob)
    by (right; reflexivity).
  split; [exact Hnd|]. split; [reflexivity|]. split; [exact Hmay|].
  destruct (deleted_post_leaves_the_listing "V1StGXR8_Z" one_post bob []
              bobs_post None Hnd eq_refl Hmay) as (listing & Hl & Hl' & _).
  injection Hl as <-. exact Hl'.
Defined.

(* ================================================================== *)
(** * What a sequence of requests can do to the posts *)
(* ================================================================== *)

(** What one request does to the posts of the store: nothing, or it adds
    one at the end, or it takes one out, or it changes the reaction of the
    requester. *)
Lemma handle_blogs env req c :
  let posts := contents blogs_json (disk c) in
  let posts' := contents blogs_json (disk (after (handle env req c))) in
  posts' = posts
  \/ (exists title content usr post,
         req = POST_posts title content /\ session_user c = Some usr
         /\ posts' = posts ++ [post]
         /\ Post.id post = nanoid env /\ Post.createdAt post = now env
         /\ Post.authorEmail post = Session.email usr)
  \/ (exists before post rest,
         posts = before ++ post :: rest /\ posts' = before ++ rest)
  \/ (exists usr,
         session_user c = Some usr
         /\ Forall2 (same_but_reaction_of (Session.email usr)) posts posts').
Proof.
  intros posts posts'. subst posts posts'.
  destruct (writes_blogs req) eqn:Hw.
  - destruct c as [d [usr|] t].
    + destruct req; try discriminate Hw; cbn [handle disk session_user].
      * destruct (createPost_run env title content d usr t)
          as (post & -> & Hid & Hat & Hauthor & _).
        right. left. exists title, content, usr, post. cbn. repeat split; assumption.
      * destruct (find (has_id id) (contents blogs_json d)) as [post|] eqn:Hf.
        -- destruct (find_split _ _ _ Hf) as (before & rest & Hposts & Hid & Hb & _).
           rewrite (deletePost_found _ _ _ _ _ _ _ Hposts Hb Hid).
           destruct (isAdmin _ || _); cbn; [|now left].
           right. right. left. now exists before, post, rest.
        -- rewrite deletePost_missing by assumption. now left.
      * right. right. right. exists usr. split; [reflexivity|].
        apply (reactions_same_but id d usr t).
      * right. right. right. exists usr. split; [reflexivity|].
        apply (reactions_same_but id d usr t).
    + left. destruct req; try discriminate Hw; reflexivity.
  - left. unfold contents. cbn [slot].
    now rewrite (proj2 (proj2 (handle_footprint env req c)) Hw).
Qed.

Lemma same_but_ids u (l l' : list Post.t) :
  Forall2 (same_but_reaction_of u) l l' -> map body_of l' = map body_of l.
Proof.
  induction 1 as [|p p' l l' [Hb _] _ IH]; [reflexivity|].
  cbn. now rewrite Hb, IH.
Qed.

Lemma map_id_body (l : list Post.t) :
  map Post.id l = map (fun b => fst (fst (fst (fst (fst b))))) (map body_of l).
Proof. rewrite map_map. reflexivity. Qed.

(** One request keeps the ids unique when [nanoid] gives [POST /posts] an
    id that is not in use. *)
Lemma handle_unique_ids env req c :
  NoDup (post_ids (disk c)) ->
  match req with
  | POST_posts _ _ => ~ In (nanoid env) (post_ids (disk c))
  | _ => True
  end ->
  NoDup (post_ids (disk (after (handle env req c)))).
Proof.
  intros Hnd Hfresh. unfold post_ids in *.
  destruct (handle_blogs env req c)
    as [-> | [(title & content & usr & post & -> & _ & -> & Hid & _)
       | [(before & post & rest & Hposts & ->) | (usr & _ & Hsame)]]].
  - assumption.
  - rewrite map_app. cbn [map]. rewrite Hid.
    apply NoDup_app_remove_l with (l := []). cbn.
    apply Permutation_NoDup
      with (l := nanoid env :: map Post.id (contents blogs_json (disk c))).
    + apply Permutation_cons_append.
    + now constructor.
  - rewrite Hposts, map_app in Hnd. cbn [map] in Hnd.
    apply NoDup_remove_1 in Hnd. now rewrite map_app.
  - rewrite map_id_body, (same_but_ids _ _ _ Hsame), <- map_id_body. assumption.
Qed.

(** X14.  The ids of the posts stay unique along any sequence of
    requests, as long as [nanoid] never returns to [POST /posts] an id that
    a post of the store has at that moment: reactions keep every id,
    deleting takes one away, and nothing else touches them. *)
Theorem post_ids_stay_unique :
  forall reqs d,
    NoDup (post_ids d) -> fresh_ids reqs d -> NoDup (post_ids (serve reqs d)).
Proof.
  induction reqs as [|[[env s] req] reqs IH]; intros d Hnd Hfresh; simpl.
  - assumption.
  - destruct Hfresh as [Hhere Hlater]. apply IH; [|assumption].
    apply (handle_unique_ids env req (mkCtx d s [])); assumption.
Qed.

Lemma post_ids_stay_unique_witness :
  let reqs :=
    [(example_env "Uakgb_J5m9" 1700000000001, Some alice,
      POST_posts (Some "Second") (Some "post"));
     (example_env "x" 1700000000002, Some alice, POST_like "V1StGXR8_Z");
     (example_env "x" 1700000000003, Some bob, DELETE_posts "V1StGXR8_Z")] in
  NoDup (post_ids one_post) /\ fresh_ids reqs one_post
  /\ NoDup (post_ids (serve reqs one_post)).
Proof.
  intros reqs.
  assert (Hnd : NoDup (post_ids one_post))
    by (cbn; repeat constructor; intros []).
  assert (Hfresh : fresh_ids reqs one_post)
    by (cbn; repeat split; intros [H|[]]; discriminate).
  split; [exact Hnd|]. split; [exact Hfresh|].
  exact (post_ids_stay_unique reqs one_post Hnd Hfresh).
Defined.

Lemma Forall2_In_r {A B} (R : A -> B -> Prop) l l' y :
  Forall2 R l l' -> In y l' -> exists x, In x l /\ R x y.
Proof.
  induction 1 as [|x y' l l' Hxy _ IH]; [intros []|].
  intros [<-|Hin].
  - exists x. split; [now left | assumption].
  - destruct (IH Hin) as (x' & Hx' & HR). exists x'. split; [now right | assumption].
Qed.

(** A post of the store after one request has the body of a post that was
    there before, or is the post this request created. *)
Lemma handle_bodies env req c p' :
  In p' (contents blogs_json (disk (after (handle env req c)))) ->
  (exists p, In p (contents blogs_json (disk c)) /\ body_of p' = body_of p)
  \/ (exists title content usr,
         req = POST_posts title content /\ session_user c = Some usr
         /\ Post.id p' = nanoid env /\ Post.createdAt p' = now env
         /\ Post.authorEmail p' = Session.email usr).
Proof.
  intros Hin.
  destruct (handle_blogs env req c)
    as [Heq | [(title & content & usr & post & Hreq & Hs & Heq & Hid & Hat & Hau)
       | [(before & post & rest & Hposts & Heq) | (usr & _ & Hsame)]]].
  - rewrite Heq in Hin. left. now exists p'.
  - rewrite Heq in Hin. apply in_app_iff in Hin as [Hin|[<-|[]]].
    + left. now exists p'.
    + right. now exists title, content, usr.
  - rewrite Heq in Hin. left. exists p'. split; [|reflexivity].
    rewrite Hposts. apply in_app_iff in Hin as [Hin|Hin];
      apply in_app_iff; [now left | right; now right].
  - destruct (Forall2_In_r _ _ _ _ Hsame Hin) as (p & Hp & Hb & _).
    left. now exists p.
Qed.

(** X15.  No route edits a post.  After any sequence of requests, every
    post of the store either has the id, title, content, author and
    creation instant of a post the store held at the start, or was created
    by one of the requests, a [POST /posts] sent with a session: then its
    id and creation instant are the ones [nanoid] and the clock gave to
    that request, and its author is the email of that session. *)
Theorem posts_are_never_edited :
  forall reqs d p',
    In p' (contents blogs_json (serve reqs d)) ->
    (exists p, In p (contents blogs_json d) /\ body_of p' = body_of p)
    \/ (exists env usr title content,
           In (env, Some usr, POST_posts title content) reqs
           /\ Post.id p' = nanoid env /\ Post.createdAt p' = now env
           /\ Post.authorEmail p' = Session.email usr).
Proof.
  induction reqs as [|[[env s] req] reqs IH]; intros d p' Hin; simpl in Hin.
  - left. now exists p'.
  - destruct (IH _ _ Hin) as [(p1 & Hp1 & Hb1) | (env' & usr & ti & co & Hreq & Hrest)].
    + destruct (handle_bodies env req (mkCtx d s []) p1 Hp1)
        as [(p & Hp & Hb) | (ti & co & usr & -> & Hs & Hid & Hat & Hau)].
      * left. exists p. split; [assumption | congruence].
      * right. cbn in Hs. subst s. exists env, usr, ti, co.
        split; [now left|].
        unfold body_of in Hb1. injection Hb1 as Hi _ _ Ha _ Hc.
        repeat split; congruence.
    + right. exists env', usr, ti, co. split; [now right | assumption].
Qed.

Lemma posts_are_never_edited_witness :
  let reqs :=
    [(example_env "Uakgb_J5m9" 1700000000001, Some alice,
      POST_posts (Some "Second") (Some "post"));
     (example_env "x" 1700000000002, Some alice, POST_dislike "V1StGXR8_Z")] in
  let liked := Post.set_dislikes ["c@x.com"; "a@x.com"] (Post.set_likes [] bobs_post) in
  In liked (contents blogs_json (serve reqs one_post))
  /\ ((exists p, In p (contents blogs_json one_post) /\ body_of liked = body_of p)
      \/ (exists env usr title content,
             In (env, Some usr, POST_posts title content) reqs
             /\ Post.id liked = nanoid env /\ Post.createdAt liked = now env
             /\ Post.authorEmail liked = Session.email usr)).
Proof.
  intros reqs liked.
  assert (H : In liked (contents blogs_json (serve reqs one_post)))
    by (left; reflexivity).
  split; [exact H|].
  exact (posts_are_never_edited reqs one_post liked H).
Defined.

(* ================================================================== *)
(** * What a sequence of requests can do to the accounts *)
(* ================================================================== *)

(** One request leaves the user list as it is or adds one record at its
    end. *)
Lemma handle_users env req c :
  exists more,
    contents users_json (disk (after (handle env req c)))
    = contents users_json (disk c) ++ more.
Proof.
  destruct (writes_users req) eqn:Hw.
  - destruct req; try discriminate Hw.
    handler_cases c;
      first [ exists []; now rewrite app_nil_r
            | eexists; unfold contents at 1; cbn; unfold Js.push; reflexivity ].
  - exists []. rewrite app_nil_r. unfold contents. cbn [slot].
    now rewrite (proj1 (proj2 (handle_footprint env req c)) Hw).
Qed.

(** One request keeps the emails of the accounts unique. *)
Lemma handle_unique env req c :
  Unique (disk c) -> Unique (disk (after (handle env req c))).
Proof.
  destruct (writes_users req) eqn:Hw.
  - destruct req; try discriminate Hw. apply signup_unique.
  - unfold Unique, emails, contents. cbn [slot].
    destruct (handle_footprint env req c) as (-> & Hu & _).
    now rewrite (Hu Hw).
Qed.

(** X16.  Accounts are never removed or edited.  After any sequence of
    requests the user list starts with the user records it held at the
    start, unchanged and in their order; what follows them are the
    records added since. *)
Theorem user_records_are_kept :
  forall reqs d,
    exists more,
      contents users_json (serve reqs d) = contents users_json d ++ more.
Proof.
  induction reqs as [|[[env s] req] reqs IH]; intros d; simpl.
  - exists []. now rewrite app_nil_r.
  - destruct (IH (disk (after (handle env req (mkCtx d s []))))) as (later & ->).
    destruct (handle_users env req (mkCtx d s [])) as (more & ->).
    exists (more ++ later). cbn. now rewrite app_assoc.
Qed.

(** X17.  Emails stay unique across admins and users along any sequence
    of requests of any kind, by any clients, whose body fields are
    submitted as strings or left out: if no email belongs to two accounts
    at the start, none does afterwards. *)
Theorem emails_stay_unique :
  forall reqs d, Unique d -> Unique (serve reqs d).
Proof.
  induction reqs as [|[[env s] req] reqs IH]; intros d Hd; simpl.
  - assumption.
  - apply IH. now apply (handle_unique env req (mkCtx d s [])).
Qed.

Lemma emails_stay_unique_witness :
  let env := example_env "id" 0 in
  let reqs :=
    [(env, None, POST_signup (Some "Al") (Some "a@x.com") (Some "pw9"));
     (env, None, POST_signup (Some "Carol") (Some "c@x.com") (Some "pw3"));
     (env, None, POST_login (Some "c@x.com") (Some "pw3"))] in
  Unique two_accounts
  /\ Unique (serve reqs two_accounts)
  /\ emails (serve reqs two_accounts) = ["admin@example.com"; "a@x.com"; "c@x.com"].
Proof.
  intros env reqs.
  assert (Hu : Unique two_accounts).
  { unfold Unique. cbn. repeat constructor; cbn; intuition discriminate. }
  split; [exact Hu|].
  split; [exact (emails_stay_unique reqs two_accounts Hu) | reflexivity].
Defined.

(* ================================================================== *)
(** * Signing up and then logging in *)
(* ================================================================== *)

Lemma find_email_absent {A} (email_of : A -> string) (e : string) (l : list A) :
  ~ In e (map email_of l) ->
  find (fun a => Js.strict_eq (email_of a) (Some e)) l = None.
Proof.
  intros H. destruct (find _ l) as [a|] eqn:Hf; [|reflexivity].
  apply find_some in Hf as [Hin He]. cbn in He. apply String.eqb_eq in He.
  destruct H. apply in_map_iff. now exists a.
Qed.

Lemma find_email_last {A} (email_of : A -> string) (e : string) (l : list A) a :
  ~ In e (map email_of l) -> email_of a = e ->
  find (fun a => Js.strict_eq (email_of a) (Some e)) (l ++ [a]) = Some a.
Proof.
  intros H Ha. induction l as [|x l IH]; cbn.
  - now rewrite Ha, String.eqb_refl.
  - cbn in H. destruct (String.eqb_spec (email_of x) e) as [He|He]; [tauto|].
    apply IH. tauto.
Qed.

Lemma display_name (name : Js.field) (fallback : string) :
  Js.or_else (Some (Js.or_else name "")) fallback = Js.or_else name fallback.
Proof.
  destruct name as [n|]; cbn; [|reflexivity].
  destruct (n =? "")%string eqn:Hn; cbn; [reflexivity | now rewrite Hn].
Qed.

(** X18.  An account that was just signed up can log in, as a user.
    After a signup with a non-empty password and an email that no account
    has, a login with that email (from any client) succeeds exactly when
    [bcryptjs] accepts the password sent against the hash it made at the
    signup: then the session holds the email, the role [user] and, as the
    display name, the name signed up with or, when that is missing or
    empty, the part of the email before the at sign.  Otherwise the
    answer is [InvalidCredentials] and the session stays as it was. *)
Theorem signup_then_login :
  forall env1 env2 name email password attempt d s t s2,
    email <> EmptyString -> password <> EmptyString ->
    ~ In email (emails d) ->
    let c1 := after (signup env1 name (Some email) (Some password) (mkCtx d s t)) in
    let r := login env2 (Some email) (Some attempt) (as_client s2 c1) in
    if bcrypt_compare env2 attempt (bcrypt_hash env1 password 10)
    then response r = redirect "/"
         /\ session_user (after r)
            = Some (Session.mk email (Js.or_else name (Js.before_at email)) user)
    else response r = InvalidCredentials /\ session_user (after r) = s2.
Proof.
  intros env1 env2 name email password attempt d s t s2 He Hp Hfresh c1 r.
  subst c1 r. rewrite signup_fresh by assumption.
  unfold emails in Hfresh. rewrite in_app_iff in Hfresh.
  unfold as_client, after at 2 4, response. cbn [snd disk trace]. run.
  change (contents admins_json (store users_json ?v d))
    with (contents admins_json d).
  rewrite find_email_absent by tauto.
  change (contents users_json (store users_json ?v d)) with v.
  rewrite find_email_last by tauto. cbn.
  destruct (bcrypt_compare env2 attempt _); cbn; [|auto].
  split; [reflexivity|].
  change (if (Js.or_else name "" =? "")%string
          then Js.before_at email else Js.or_else name "")
    with (Js.or_else (Some (Js.or_else name "")) (Js.before_at email)).
  now rewrite display_name.
Qed.

Lemma signup_then_login_witness :
  let env := example_env "id" 0 in
  "c@x.com" <> EmptyString /\ "pw3" <> EmptyString
  /\ ~ In "c@x.com" (emails two_accounts)
  /\ session_user
       (after (login env (Some "c@x.com") (Some "pw3")
                 (as_client None
                    (after (signup env None (Some "c@x.com") (Some "pw3")
                              (mkCtx two_accounts None []))))))
     = Some (Session.mk "c@x.com" "c" user).
Proof.
  intros env.
  assert (He : "c@x.com" <> EmptyString) by discriminate.
  assert (Hp : "pw3" <> EmptyString) by discriminate.
  assert (Hfresh : ~ In "c@x.com" (emails two_accounts))
    by (cbn; intros [H|[H|[]]]; discriminate).
  split; [exact He|]. split; [exact Hp|]. split; [exact Hfresh|].
  exact (proj2 (signup_then_login env env None "c@x.com" "pw3" "pw3"
                  two_accounts None [] None He Hp Hfresh)).
Defined.

(* ================================================================== *)
(** * A file of blanks *)
(* ================================================================== *)

(** X19.  Only the empty file stands for the empty collection.  A file
    that is not empty but holds white space only (a space, a line break
    left by an editor) is no JSON text: [readJSON] throws the
    [SyntaxError] of [JSON.parse] for it. *)
Theorem readJSON_blank_file :
  forall d name raw,
    d name = Fs.Holds raw ->
    raw <> EmptyString ->
    Fs.skip_ws raw = EmptyString ->
    Fs.readJSON d name = inl SyntaxError.
Proof.
  intros d name raw Hd Hne Hws.
  rewrite (readJSON_of_text _ _ _ Hd).
  apply String.eqb_neq in Hne. rewrite Hne.
  unfold Fs.JSON_parse.
  replace (2 * String.length raw + 2) with (S (2 * String.length raw + 1)) by lia.
  now rewrite value_S, Hws.
Qed.

Lemma readJSON_blank_file_witness :
  let d := fun _ : string => Fs.Holds (String "010" EmptyString) in
  d "blogs.json" = Fs.Holds (String "010" EmptyString)
  /\ String "010" EmptyString <> EmptyString
  /\ Fs.skip_ws (String "010" EmptyString) = EmptyString
  /\ Fs.readJSON d "blogs.json" = inl SyntaxError.
Proof.
  intros d.
  assert (Hne : String "010" EmptyString <> EmptyString) by discriminate.
  split; [reflexivity|]. split; [exact Hne|]. split; [reflexivity|].
  exact (readJSON_blank_file d "blogs.json" (String "010" EmptyString)
           eq_refl Hne eq_refl).
Defined.

(* ================================================================== *)
(** * Logging out *)
(* ================================================================== *)

(** X20.  A logout ends the session whatever it was: the client is sent
    to the login page, its session is gone, no file is read or written,
    and a request to a guarded route that follows it is turned away to the
    login page without any effect. *)
Theorem logout_ends_the_session :
  forall env c req,
    guarded req = true ->
    let c1 := after (logout c) in
    response (logout c) = redirect "/login"
    /\ c1 = mkCtx (disk c) None (trace c)
    /\ handle env req c1 = (redirect "/login", c1).
Proof.
  intros env c req Hg c1. subst c1.
  split; [reflexivity|]. split; [reflexivity|].
  destruct req; try discriminate Hg; reflexivity.
Qed.

Lemma logout_ends_the_session_witness :
  guarded (POST_like "V1StGXR8_Z") = true
  /\ handle (example_env "id" 0) (POST_like "V1StGXR8_Z")
       (after (logout (mkCtx one_post (Some alice) [])))
     = (redirect "/login", mkCtx one_post None []).
Proof.
  split; [reflexivity|].
  exact (proj2 (proj2 (logout_ends_the_session (example_env "id" 0)
                         (mkCtx one_post (Some alice) [])
                         (POST_like "V1StGXR8_Z") eq_refl))).
Defined.
